(** * Verification of the Double-DQN trainer in [src/model-actions.js]

    The development embeds the encoder ([obstacleToVector], [stateToTensor]),
    the learner ([optimizeModel]), the target synchroniser
    ([updateTargetModel]) and the episode driver ([trainDinoModel]) as Rocq
    functions and proves the properties stated for them.

    Conventions of the embedding.
    - Pixel coordinates and time stamps are integers ([Z]); array indices,
      actions and episode counters are naturals.
    - Action values, rewards, [gamma] and [epsilon] are JavaScript numbers;
      they are idealised as real numbers ([R]): rounding of double and
      single precision arithmetic is outside the model.
    - Weights of a network are an abstract type; the forward pass of the
      shared architecture is a parameter [forward].
    - The environment and the random generator are oracles: the answers of
      [proxy.state()] are a list consumed in order, the draws of
      [Math.random] come with each iteration. *)

From Stdlib Require Import ZArith List Bool Lia Reals Lra PeanoNat Permutation.
From Stdlib Require String.
Import ListNotations.

(* ------------------------------------------------------------------ *)
(** ** JavaScript primitives used by the source *)

Module Js.

Open Scope Z_scope.

(** [ToInt32]: the coercion every bitwise operator applies to its operand;
    the value is taken modulo 2^32 into the signed range. *)
Definition toInt32 (z : Z) : Z := (z + 2 ^ 31) mod 2 ^ 32 - 2 ^ 31.

(** [~~(a / b)] for integers [a] and [b]: the quotient is truncated toward
    zero and then wrapped by [ToInt32].  (The source divides by 16, a
    power of two, so the double division is exact for every integer [a]
    below 2^53 in size.) *)
Definition truncDiv (a b : Z) : Z := toInt32 (Z.quot a b).

(** [arr[k] = v] on an ordinary array: an index inside the array is
    overwritten, an index past the end grows the array (the holes are
    written as 0 here; an array that has grown is rejected by [tensor2d]
    below, so their value is never read). *)
Fixpoint array_set (k : nat) (v : Z) (arr : list Z) : list Z :=
  match k, arr with
  | O, [] => [v]
  | O, _ :: rest => v :: rest
  | S k', [] => 0 :: array_set k' v []
  | S k', x :: rest => x :: array_set k' v rest
  end.

(** [arr[k] = v] on a typed array: a store outside the array is ignored. *)
Fixpoint typed_set {A : Type} (k : nat) (v : A) (arr : list A) : list A :=
  match k, arr with
  | _, [] => []
  | O, _ :: rest => v :: rest
  | S k', x :: rest => x :: typed_set k' v rest
  end.

(** [arr.slice(from, to)] for [0 <= from <= to]. *)
Definition slice {A : Type} (from to : nat) (arr : list A) : list A :=
  firstn (to - from) (skipn from arr).

(** [a % b === 0] on non-negative integers: [a % 0] is NaN, which is not
    equal to 0. *)
Definition remIsZero (a b : nat) : bool :=
  match b with
  | O => false
  | S _ => Nat.eqb (Nat.modulo a b) 0
  end.

End Js.

(** Exceptions that the embedded code can raise. *)
Inductive Exn : Type :=
| ShapeError          (* tf.tensor2d: values do not match the shape *)
| InsufficientData    (* memory.sample on a buffer that is too small *)
| FitError (code : nat). (* failure inside the tensor runtime during fit *)

Definition bind {A B : Type} (m : Exn + A) (k : A -> Exn + B) : Exn + B :=
  match m with
  | inl e => inl e
  | inr a => k a
  end.

Notation "x <- m ;; k" := (bind m (fun x => k))
  (at level 61, m at next level, right associativity).

(* ------------------------------------------------------------------ *)
(** ** State encoder *)

Module Encoder.

Open Scope Z_scope.

Record Obstacle : Type := mkObstacle
  { xPos : Z; yPos : Z; width : Z; size : Z }.

(** A well-formed state: the obstacles are an array of obstacle
    objects.  What the encoder does with a value that is not one (no
    [obstacles] field, a null entry in the array) is the subject of
    [RawEncoder] below, which agrees with [stateToTensor] on the
    well-formed states. *)
Record State : Type := mkState
  { obstacles : list Obstacle;
    jumping : bool;
    ypos : Z;
    time : Z;
    done : bool }.

(** [Math.min(39, Math.max(0, ~~((obstacle.xPos - 19) / 16)))] *)
Definition distance (obstacle : Obstacle) : Z :=
  Z.min 39 (Z.max 0 (Js.truncDiv (xPos obstacle - 19) 16)).

Definition obstacleToVector (obstacle : Obstacle) (vector : list Z)
    (offset : nat) : list Z :=
  let vector := Js.array_set (offset + Z.to_nat (distance obstacle)) 1 vector in
  let vector := Js.array_set (offset + 40) (yPos obstacle) vector in
  let vector := Js.array_set (offset + 41) (width obstacle) vector in
  Js.array_set (offset + 42) (size obstacle) vector.

(** [tf.tensor2d(values, [1, 88])]: raises unless there are 88 values. *)
Definition tensor2d (values : list Z) : Exn + list Z :=
  if Nat.eqb (length values) 88 then inr values else inl ShapeError.

(** Lines 20-54 on a well-formed state; on these it is the function
    [RawEncoder.stateToTensorRaw] of arbitrary values. *)
Definition stateToTensor (state : State) : Exn + list Z :=
  let vector := repeat 0 88 in
  let vector :=
    match obstacles state with
    | [] => vector
    | o0 :: rest =>
        let vector := obstacleToVector o0 vector 0 in
        match rest with
        | [] => vector
        | o1 :: _ => obstacleToVector o1 vector 43
        end
    end in
  let vector := if jumping state then Js.array_set 86 1 vector else vector in
  let vector := Js.array_set 87 (ypos state) vector in
  tensor2d vector.

(** The bucket as the specification words it:
    clamp(floor((xPos - 19) / 16), 0, 39). *)
Definition bucket_spec (x : Z) : Z := Z.min 39 (Z.max 0 ((x - 19) / 16)).

End Encoder.

(* ------------------------------------------------------------------ *)
(** ** The encoder on values as they arrive

    [proxy.state()] returns a plain object.  Its [obstacles] field may be
    absent ([undefined]) and an entry of the array may be [null] or
    [undefined]; reading [.length] of the first or [.xPos] of the second
    raises a [TypeError]. *)

Module RawEncoder.

Import Encoder.
Open Scope Z_scope.

Record RawState : Type := mkRawState
  { rawObstacles : option (list (option Obstacle));
    rawJumping : bool;
    rawYpos : Z;
    rawTime : Z;
    rawDone : bool }.

(** What the encoder can raise: the [TypeError] of a property read on
    [undefined] or [null], or an exception of the tensor runtime. *)
Inductive EncodeError : Type :=
| TypeError
| TensorError (e : Exn).

(** Lines 46-53: the two writes after the obstacle blocks and the
    tensor. *)
Definition finish (state : RawState) (vector : list Z)
    : EncodeError + list Z :=
  let vector :=
    if rawJumping state then Js.array_set 86 1 vector else vector in
  let vector := Js.array_set 87 (rawYpos state) vector in
  match tensor2d vector with
  | inr t => inr t
  | inl e => inl (TensorError e)
  end.

(** Lines 20-54 on a raw value. *)
Definition stateToTensorRaw (state : RawState) : EncodeError + list Z :=
  let vector := repeat 0 88 in
  match rawObstacles state with
  | None => inl TypeError
  | Some obstacles =>
      match obstacles with
      | [] => finish state vector
      | entry0 :: rest =>
          match entry0 with
          | None => inl TypeError
          | Some o0 =>
              let vector := obstacleToVector o0 vector 0 in
              match rest with
              | [] => finish state vector
              | entry1 :: _ =>
                  match entry1 with
                  | None => inl TypeError
                  | Some o1 => finish state (obstacleToVector o1 vector 43)
                  end
              end
          end
      end
  end.

(** The raw value of a well-formed state. *)
Definition ofState (s : State) : RawState :=
  mkRawState (Some (map Some (obstacles s))) (jumping s) (ypos s) (time s)
             (done s).

(** The [obstacles] field is an array and the entries the encoder reads,
    the first two, are obstacle objects. *)
Definition wellFormed (state : RawState) : bool :=
  match rawObstacles state with
  | None => false
  | Some [] => true
  | Some (None :: _) => false
  | Some (Some _ :: []) => true
  | Some (Some _ :: None :: _) => false
  | Some (Some _ :: Some _ :: _) => true
  end.

End RawEncoder.

(* ------------------------------------------------------------------ *)
(** ** Replay memory *)

Module Replay.

Record Transition : Type := mkTransition
  { state : list Z;
    action : nat;
    reward : R;
    nextState : list Z;
    done : bool }.

(** Modelled from the spec: the class [Memory] ([require('../src/Memory')])
    is used by the trainer through [buffer], [add] and [sample] but its
    file is not among the sources.  It is a bounded FIFO buffer: [add]
    evicts the oldest entry when the buffer is at capacity, [sample n]
    fails when fewer than [n] entries are stored and otherwise makes [n]
    independent draws (the random indices are the oracle [draw]). *)
Record Memory : Type := mkMemory
  { capacity : nat;
    buffer : list Transition }.

(** Modelled from the spec: [add] evicts the oldest entry of a full
    buffer, then appends. *)
Definition add (t : Transition) (m : Memory) : Memory :=
  if Nat.leb (capacity m) (length (buffer m))
  then mkMemory (capacity m) (tl (buffer m) ++ [t])
  else mkMemory (capacity m) (buffer m ++ [t]).

(** Modelled from the spec: [sample n] raises on fewer than [n] entries,
    otherwise returns [n] entries drawn with replacement. *)
Definition sample (n : nat) (draw : nat -> nat) (m : Memory)
    : Exn + list Transition :=
  if Nat.ltb (length (buffer m)) n then inl InsufficientData
  else
    match buffer m with
    | [] => inr []
    | t0 :: _ =>
        inr (map (fun k => nth (draw k mod length (buffer m)) (buffer m) t0)
                 (seq 0 n))
    end.

End Replay.

(* ------------------------------------------------------------------ *)
(** ** Learner: the Double-DQN optimisation step *)

Module Learner.

Import Replay.
Open Scope R_scope.

(** A rank-2 tensor: its rows, and its second dimension [shape[1]]. *)
Record Tensor : Type := mkTensor
  { rows : list (list R);
    shape1 : nat }.

(** [tensor.dataSync()]: the values, row after row. *)
Definition dataSync (t : Tensor) : list R := concat (rows t).

(** [argMax] along one row: the first index that holds the maximum. *)
Fixpoint argMaxFrom (best : R) (bestIndex index : nat) (row : list R) : nat :=
  match row with
  | [] => bestIndex
  | x :: rest =>
      if Rlt_dec best x
      then argMaxFrom x index (S index) rest
      else argMaxFrom best bestIndex (S index) rest
  end.

Definition argMaxRow (row : list R) : nat :=
  match row with
  | [] => 0%nat
  | x :: rest => argMaxFrom x 0 1 rest
  end.

(** [tensor.argMax(-1).dataSync()] *)
Definition argMax (t : Tensor) : list nat := map argMaxRow (rows t).

Section Model.

Variable Weights : Type.
(** Forward pass of the architecture on one feature vector. *)
Variable forward : Weights -> list Z -> list R.
(** Width of the output layer. *)
Variable units : nat.
(** [model.fit(inputs, targets, {epochs: 1, batchSize, shuffle: true})]:
    the new weights and the loss, or the exception it raises. *)
Variable fit :
  Weights -> list (list Z) -> list (list R) -> nat -> Exn + (Weights * R).

(** [model.apply(tf.tensor2d(batch))] *)
Definition apply (model : Weights) (batch : list (list Z)) : Tensor :=
  mkTensor (map (forward model) batch) units.

(** Lines 194-203: the value written for the action taken. *)
Definition targetQValue (targetModelNextQValues : list R)
    (onlineModelNextActions : list nat) (noOfActions : nat) (gamma : R)
    (i : nat) (experience : Transition) : R :=
  if done experience then reward experience
  else
    let nextOnlineAction := nth i onlineModelNextActions 0%nat in
    let nextTargetQValue :=
      nth (noOfActions * i + nextOnlineAction) targetModelNextQValues 0 in
    reward experience + gamma * nextTargetQValue.

(** Lines 191-214: the loop over the batch, from index [i] on (the
    branch under [false && experience.done] never runs). *)
Fixpoint targetsLoop (onlineModelQValues targetModelNextQValues : list R)
    (onlineModelNextActions : list nat) (noOfActions : nat) (gamma : R)
    (i : nat) (experiences : list Transition) : list (list R) :=
  match experiences with
  | [] => []
  | experience :: rest =>
      let targetQ :=
        targetQValue targetModelNextQValues onlineModelNextActions
                     noOfActions gamma i experience in
      let targetArray :=
        Js.slice (i * noOfActions) ((i + 1) * noOfActions)
                 onlineModelQValues in
      Js.typed_set (action experience) targetQ targetArray
        :: targetsLoop onlineModelQValues targetModelNextQValues
             onlineModelNextActions noOfActions gamma (S i) rest
  end.

(** Lines 167-214: the inputs and the targets handed to [fit], for a
    batch that has entries. *)
Definition regressionTargets (onlineModel targetModel : Weights)
    (experiences : list Transition) (gamma : R)
    : list (list Z) * list (list R) :=
  let statesVectors := map state experiences in
  let nextStatesVectors := map nextState experiences in
  let onlineModelQValuesTensor := apply onlineModel statesVectors in
  let onlineModelNextQValuesTensor := apply onlineModel nextStatesVectors in
  let targetModelNextQValuesTensor := apply targetModel nextStatesVectors in
  let onlineModelQValues := dataSync onlineModelQValuesTensor in
  let targetModelNextQValues := dataSync targetModelNextQValuesTensor in
  let noOfActions := shape1 targetModelNextQValuesTensor in
  let onlineModelNextActions := argMax onlineModelNextQValuesTensor in
  (statesVectors,
   targetsLoop onlineModelQValues targetModelNextQValues
               onlineModelNextActions noOfActions gamma 0 experiences).

(** [tf.tensor2d(statesVectors)] at line 174 raises on an empty batch,
    before any model is applied; on a batch that has entries the online
    model is fitted on the inputs and targets above. *)
Definition optimizeModel (onlineModel targetModel : Weights)
    (experiences : list Transition) (gamma : R) (batchSize : nat)
    : Exn + (Weights * R) :=
  match experiences with
  | [] => inl ShapeError
  | _ :: _ =>
      let '(statesVectors, targets) :=
        regressionTargets onlineModel targetModel experiences gamma in
      fit onlineModel statesVectors targets batchSize
  end.

End Model.

End Learner.

(* ------------------------------------------------------------------ *)
(** ** Target synchroniser *)

Module Sync.

Import String.

Section Store.

Variable Weights : Type.

(** Durable storage: the checkpoints written so far, latest first. *)
Definition Storage : Type := list (String.string * Weights).

Definition save (path : String.string) (model : Weights) (disk : Storage)
    : Storage :=
  (path, model) :: disk.

Fixpoint load (path : String.string) (disk : Storage) : option Weights :=
  match disk with
  | [] => None
  | (p, w) :: rest => if String.eqb p path then Some w else load path rest
  end.

Definition mainPath : String.string :=
  "file://./dino-chrome-model/main"%string.
Definition targetPath : String.string :=
  "file://./dino-chrome-model/target"%string.

(** Returns the online model, the target model and the storage after
    the call. *)
Definition updateTargetModel (onlineModel targetModel : Weights)
    (disk : Storage) : Weights * Weights * Storage :=
  let onlineWeights := onlineModel in
  let targetModel := onlineWeights in
  let disk := save mainPath onlineModel disk in
  let disk := save targetPath targetModel disk in
  (onlineModel, targetModel, disk).

End Store.

End Sync.

(* ------------------------------------------------------------------ *)
(** ** Training loop *)

Module Training.

Import Encoder.

Record Config : Type := mkConfig
  { episodes : nat;
    batchSize : nat;
    gamma : R;
    epsilonStart : R;
    epsilonEnd : R;
    epsilonDecay : R;
    targetUpdateFrequency : nat }.

(** What the loop prints: [console.warn] of a time delta, [console.log]
    of a caught exception. *)
Inductive Console : Type :=
| Warn (timeDelta : Z)
| LogExn (e : Exn).

(** A write to [logs.txt] as [fs.appendFile] is asked to make it.  The
    calls are not awaited: the session keeps the writes in the order in
    which they are issued, which is the order of the program; the order
    in which they reach the file is not fixed by the program. *)
Inductive LogLine : Type :=
| Separator
| EpisodeLine (episode : nat) (epsilon totalReward : R).

(** The random draws of one iteration: the two calls of [Math.random] in
    [selectAction] and the indices drawn by [memory.sample]. *)
Record Dice : Type := mkDice
  { u1 : R;
    u2 : R;
    draw : nat -> nat }.

(** [landed issued file]: [file] is a content the log file can have once
    every write issued has completed: the same lines, each once, in any
    order. *)
Definition landed (issued file : list LogLine) : Prop :=
  Permutation issued file.

(** The window of line 115 as a test on the two states: [true] when
    the delta is neither below 40 nor above 60. *)
Definition inWindow (state nextState : State) : bool :=
  negb ((time nextState - time state <? 40)%Z
        || (time nextState - time state >? 60)%Z).

Section Loop.

Variable Weights : Type.
Variable forward : Weights -> list Z -> list R.
Variable units : nat.
Variable fit :
  Weights -> list (list Z) -> list (list R) -> nat -> Exn + (Weights * R).

(** The variables of [trainDinoModel] and the objects it mutates;
    [logs] are the writes to the log file issued so far. *)
Record Session : Type := mkSession
  { epsilon : R;
    episodeReward : R;
    memory : Replay.Memory;
    onlineModel : Weights;
    targetModel : Weights;
    disk : Sync.Storage Weights;
    console : list Console;
    logs : list LogLine }.

Definition setEpsilon (v : R) (s : Session) : Session :=
  mkSession v (episodeReward s) (memory s) (onlineModel s) (targetModel s)
            (disk s) (console s) (logs s).

Definition setEpisodeReward (v : R) (s : Session) : Session :=
  mkSession (epsilon s) v (memory s) (onlineModel s) (targetModel s)
            (disk s) (console s) (logs s).

Definition setMemory (m : Replay.Memory) (s : Session) : Session :=
  mkSession (epsilon s) (episodeReward s) m (onlineModel s) (targetModel s)
            (disk s) (console s) (logs s).

Definition setOnlineModel (w : Weights) (s : Session) : Session :=
  mkSession (epsilon s) (episodeReward s) (memory s) w (targetModel s)
            (disk s) (console s) (logs s).

Definition setModels (w t : Weights) (d : Sync.Storage Weights)
    (s : Session) : Session :=
  mkSession (epsilon s) (episodeReward s) (memory s) w t d
            (console s) (logs s).

Definition print (c : Console) (s : Session) : Session :=
  mkSession (epsilon s) (episodeReward s) (memory s) (onlineModel s)
            (targetModel s) (disk s) (console s ++ [c]) (logs s).

(** [fs.appendFile('logs.txt', ...)]: the write is issued and recorded
    after the writes issued before; it is not awaited. *)
Definition appendLog (l : LogLine) (s : Session) : Session :=
  mkSession (epsilon s) (episodeReward s) (memory s) (onlineModel s)
            (targetModel s) (disk s) (console s) (logs s ++ [l]).

(** [selectAction]: explore with probability [epsilon], otherwise take
    the action the model values most. *)
Definition selectAction (model : Weights) (stateTensor : list Z)
    (epsilon : R) (d : Dice) : nat :=
  if Rlt_dec (u1 d) epsilon
  then Z.to_nat (Int_part (u2 d * 2))
  else
    let qValues := Learner.apply Weights forward units model [stateTensor] in
    nth 0 (Learner.argMax qValues) 0%nat.

(** Lines 95-96: the body of the [try]. *)
Definition tryBlock (cfg : Config) (s : Session) (d : Dice)
    : Exn + (Weights * R) :=
  experiences <- Replay.sample (batchSize cfg) (draw d) (memory s) ;;
  Learner.optimizeModel Weights forward units fit
    (onlineModel s) (targetModel s) experiences (gamma cfg)
    (batchSize cfg).

(** Lines 93-101: the guarded optimisation step with its [try]/[catch]. *)
Definition optimizationStep (cfg : Config) (s : Session) (d : Dice)
    : Session :=
  if Nat.leb (batchSize cfg) (length (Replay.buffer (memory s))) then
    match tryBlock cfg s d with
    | inr (model, _) => setOnlineModel model s
    | inl e => print (LogExn e) s
    end
  else s.

(** Lines 104-108: ask the environment until the answer is terminal or
    at least 40 ms after [state].  [None]: the answers at hand ran out
    while the loop was still waiting. *)
Fixpoint poll (state : State) (answers : list State)
    : option (State * list State) :=
  match answers with
  | [] => None
  | nextState :: rest =>
      if negb (done nextState) && (time nextState - time state <? 40)%Z
      then poll state rest
      else Some (nextState, rest)
  end.

(** Line 145. *)
Definition decayedEpsilon (cfg : Config) (episode : nat) : R :=
  (epsilonEnd cfg
   + (epsilonStart cfg - epsilonEnd cfg)
     * exp (-1 * INR episode / epsilonDecay cfg))%R.

(** Lines 123-133. *)
Definition rewardFor (nextState : State) (action : nat) : R :=
  if done nextState then (-1)%R
  else if Nat.eqb action 1 then 0%R
  else (1 / 10)%R.

(** Lines 134-145: the accepted branch, one assignment after the other. *)
Definition accumulate (reward : R) (s : Session) : Session :=
  setEpisodeReward (episodeReward s + reward)%R s.

Definition store (t : Replay.Transition) (s : Session) : Session :=
  setMemory (Replay.add t (memory s)) s.

(** Lines 110-146: evaluate the step from [state] to [nextState]. *)
Definition evaluateStep (cfg : Config) (episode : nat) (s : Session)
    (state : State) (stateTensor : list Z) (action : nat)
    (nextState : State) : Exn + Session :=
  let timeDelta := (time nextState - time state)%Z in
  if (timeDelta <? 40)%Z || (timeDelta >? 60)%Z then
    if negb (done nextState)
    then inr (print (Warn timeDelta) s)
    else inr s
  else
    nextStateTensor <- stateToTensor nextState ;;
    let reward := rewardFor nextState action in
    let s := accumulate reward s in
    let s :=
      store (Replay.mkTransition stateTensor action reward
                                 nextStateTensor (done nextState)) s in
    inr (setEpsilon (decayedEpsilon cfg episode) s).

(** Lines 103-148: fetch the next state and evaluate the step.
    [inr None]: the environment has not answered yet. *)
Definition pollAndEvaluate (cfg : Config) (episode : nat) (s : Session)
    (state : State) (stateTensor : list Z) (action : nat)
    (answers : list State)
    : Exn + option (Session * State * list State) :=
  match poll state answers with
  | None => inr None
  | Some (nextState, answers) =>
      s <- evaluateStep cfg episode s state stateTensor action nextState ;;
      inr (Some (s, nextState, answers))
  end.

(** Lines 84-148: one pass through the body of the [while] loop.
    [performAction(action, proxy)] acts on the game only: what it does
    shows in the answers of the environment. *)
Definition iteration (cfg : Config) (episode : nat) (s : Session)
    (state : State) (d : Dice) (answers : list State)
    : Exn + option (Session * State * list State) :=
  stateTensor <- stateToTensor state ;;
  let action := selectAction (onlineModel s) stateTensor (epsilon s) d in
  let s := optimizationStep cfg s d in
  pollAndEvaluate cfg episode s state stateTensor action answers.

(** How far a loop got with the oracle values at hand. *)
Inductive Run (A : Type) : Type :=
| Finished (a : A)
| Pending (s : Session)
| Aborted (e : Exn) (s : Session).

Arguments Finished {A} a.
Arguments Pending {A} s.
Arguments Aborted {A} e s.

(** Lines 83-149: [while (!state.done)]. *)
Fixpoint whileLoop (cfg : Config) (episode : nat) (s : Session)
    (state : State) (dice : list Dice) (answers : list State)
    : Run (Session * list Dice * list State) :=
  if done state then Finished (s, dice, answers)
  else
    match dice with
    | [] => Pending s
    | d :: dice =>
        match iteration cfg episode s state d answers with
        | inl e => Aborted e s
        | inr None => Pending s
        | inr (Some (s, nextState, answers)) =>
            whileLoop cfg episode s nextState dice answers
        end
    end.

(** The completed iterations of the loop, in order: the state each
    started from, the next state it fetched and the session it left. *)
Fixpoint trail (cfg : Config) (episode : nat) (s : Session)
    (state : State) (dice : list Dice) (answers : list State)
    : list (State * State * Session) :=
  if done state then []
  else
    match dice with
    | [] => []
    | d :: dice =>
        match iteration cfg episode s state d answers with
        | inr (Some (s, nextState, answers)) =>
            (state, nextState, s)
              :: trail cfg episode s nextState dice answers
        | _ => []
        end
    end.

Definition stepInWindow (step : State * State * Session) : bool :=
  inWindow (fst (fst step)) (snd (fst step)).

(** Two outcomes of one iteration that differ only by the exception [e]
    printed after the console [before] and by the online model: the
    same next state, the same answers left, the same epsilon, episode
    reward, replay memory, target model, storage and log file. *)
Definition sameProgress (e : Exn) (before : list Console)
    (failed succeeded : Exn + option (Session * State * list State))
    : Prop :=
  match failed, succeeded with
  | inr None, inr None => True
  | inr (Some (s1, next1, rest1)), inr (Some (s2, next2, rest2)) =>
      next1 = next2 /\ rest1 = rest2
      /\ epsilon s1 = epsilon s2
      /\ episodeReward s1 = episodeReward s2
      /\ memory s1 = memory s2
      /\ targetModel s1 = targetModel s2
      /\ disk s1 = disk s2
      /\ logs s1 = logs s2
      /\ exists printed : list Console,
           console s1 = before ++ LogExn e :: printed
           /\ console s2 = before ++ printed
  | _, _ => False
  end.

(** Line 152: [(episode + 1) % targetUpdateFrequency === 0]. *)
Definition syncDue (cfg : Config) (episode : nat) : bool :=
  Js.remIsZero (episode + 1) (targetUpdateFrequency cfg).

(** Lines 151-161: the end of an episode. *)
Definition episodeEnd (cfg : Config) (episode : nat) (s : Session)
    : Session :=
  let s :=
    if syncDue cfg episode then
      let '(online, target, d) :=
        Sync.updateTargetModel Weights (onlineModel s) (targetModel s)
                               (disk s) in
      setModels online target d s
    else s in
  let s :=
    appendLog (EpisodeLine (episode + 1) (epsilon s) (episodeReward s)) s in
  setEpisodeReward 0 s.

(** Lines 79-162: the episodes [episode], [episode + 1], ...; [todo] is
    the number of episodes left. *)
Fixpoint episodesLoop (cfg : Config) (todo episode : nat) (s : Session)
    (dice : list Dice) (answers : list State) : Run Session :=
  match todo with
  | O => Finished s
  | S todo =>
      match answers with
      | [] => Pending s
      | state :: answers =>
          match whileLoop cfg episode s state dice answers with
          | Finished (s, dice, answers) =>
              episodesLoop cfg todo (S episode)
                           (episodeEnd cfg episode s) dice answers
          | Pending s => Pending s
          | Aborted e s => Aborted e s
          end
      end
  end.

Definition trainDinoModel (cfg : Config) (onlineModel targetModel : Weights)
    (memory : Replay.Memory) (disk : Sync.Storage Weights)
    (dice : list Dice) (answers : list State) : Run Session :=
  let s :=
    mkSession (epsilonStart cfg) 0 memory onlineModel targetModel disk
              [] [Separator] in
  episodesLoop cfg (episodes cfg) 0 s dice answers.

End Loop.

Arguments Finished {Weights A} a.
Arguments Pending {Weights A} s.
Arguments Aborted {Weights A} e s.

End Training.

(* ------------------------------------------------------------------ *)
(** ** A small concrete instance

    A two-output network whose weights are one number [w]: it values the
    first action [w] and the second [1], whatever the input.  It is used to
    run the definitions on concrete batches and sessions. *)

Module Toy.

Import Encoder Replay Training.

Definition toyForward (w : nat) (_ : list Z) : list R := [INR w; 1%R].

(** A fit that succeeds and one that raises. *)
Definition toyFit (w : nat) (_ : list (list Z)) (_ : list (list R))
    (_ : nat) : Exn + (nat * R) := inr (S w, 0%R).

Definition failingFit (_ : nat) (_ : list (list Z)) (_ : list (list R))
    (_ : nat) : Exn + (nat * R) := inl (FitError 7%nat).

(** A step that went on after a jump, and a crash. *)
Definition toyRunning : Transition :=
  mkTransition [] 1%nat (1 / 10)%R [] false.
Definition toyCrash : Transition :=
  mkTransition [] 0%nat (-1)%R [] true.

Definition toyConfig : Config :=
  mkConfig 2%nat 1%nat (9 / 10)%R 1%R (1 / 100)%R 200%R 10%nat.

Definition toySession : Session nat :=
  mkSession nat 1%R 0%R (mkMemory 10%nat [toyRunning]) 0%nat 3%nat [] []
            [Separator].

Definition toyDice : Dice := mkDice (1 / 2)%R (1 / 2)%R (fun k : nat => k).

(** States of the game: the start, a state 25 ms later, a state 45 ms
    later. *)
Definition stateAt0 : State := mkState [] false 93 0 false.
Definition stateAt25 : State := mkState [] false 93 25 false.
Definition stateAt45 : State := mkState [] false 93 45 false.

(** A scripted game of one episode: two states 45 ms apart, then the
    crash. *)
Definition stateAt90 : State := mkState [] false 93 90 true.

Definition scriptedConfig : Config :=
  mkConfig 1%nat 1%nat (9 / 10)%R 1%R (1 / 100)%R 200%R 1%nat.

End Toy.

(* ------------------------------------------------------------------ *)
(** ** Notions used to state properties of whole sessions *)

Module Notions.

Import Encoder Training.

(** A transition labelled the way the loop labels it: reward -1 on a
    terminal step, 0 or 1/10 on a step that goes on, and both feature
    vectors 88 entries long. *)
Definition wellLabelled (t : Replay.Transition) : Prop :=
  (Replay.done t = true -> Replay.reward t = (-1)%R)
  /\ (Replay.done t = false ->
      Replay.reward t = 0%R \/ Replay.reward t = (1 / 10)%R)
  /\ length (Replay.state t) = 88%nat
  /\ length (Replay.nextState t) = 88%nat.

(** The answers the polling loop may pass over: not terminal and less
    than 40 ms after [state]. *)
Definition tooEarly (state answer : State) : Prop :=
  done answer = false /\ (time answer - time state < 40)%Z.

(** The session a run has reached, however far it got. *)
Definition reached {Weights A : Type} (project : A -> Session Weights)
    (run : Run Weights A) : Session Weights :=
  match run with
  | Finished a => project a
  | Pending s => s
  | Aborted _ s => s
  end.

Definition afterLoop {Weights : Type}
    (result : Session Weights * list Dice * list State) : Session Weights :=
  fst (fst result).

(** A session with its storage blanked: what is left is everything the
    training itself works with. *)
Definition forgetDisk {Weights : Type} (s : Session Weights)
    : Session Weights :=
  setModels Weights (onlineModel Weights s) (targetModel Weights s) [] s.

Definition mapRun {Weights A B : Type} (f : A -> B)
    (g : Session Weights -> Session Weights) (run : Run Weights A)
    : Run Weights B :=
  match run with
  | Finished a => Finished (f a)
  | Pending s => Pending (g s)
  | Aborted e s => Aborted e (g s)
  end.

End Notions.

(* ------------------------------------------------------------------ *)
(** ** Start-up and shutdown of a session: [setupModelTraining]

    The browser, the signal handler and the handler of uncaught exceptions
    belong to the process around the session and are not part of the
    function below.  [tf.loadLayersModel] of ".../main/model.json" reads
    what [model.save] wrote under ".../main"; it raises when nothing was
    saved there.  [createModel] draws fresh random weights at each call:
    they are the parameters [fresh1] and [fresh2]; [compileModel] fixes the
    optimiser and the loss, which are part of [fit]. *)

Module Setup.

Import Encoder Training.

(** What [setupModelTraining] prints. *)
Inductive BootMessage : Type :=
| LoadedSavedModel
| NoSavedModel
| LoadedTargetModel
| NoTargetModel
| TrainingError (e : Exn).

(** Lines 308-315: the constants of the session. *)
Definition sessionConfig : Config :=
  mkConfig 10000 64 (9 / 10)%R 0%R (1 / 100)%R 200%R 10.

(** Modelled from the spec: [new Memory(40000)] is an empty buffer of
    capacity 40000. *)
Definition sessionMemory : Replay.Memory := Replay.mkMemory 40000 [].

Section Boot.

Variable Weights : Type.
Variable forward : Weights -> list Z -> list R.
Variable units : nat.
Variable fit :
  Weights -> list (list Z) -> list (list R) -> nat -> Exn + (Weights * R).

Record Outcome : Type := mkOutcome
  { messages : list BootMessage;
    final : Session Weights }.

(** Lines 350-352: both models are saved when the training is over. *)
Definition finalSave (s : Session Weights) : Session Weights :=
  let d := Sync.save Weights Sync.mainPath (onlineModel Weights s)
                     (disk Weights s) in
  let d := Sync.save Weights Sync.targetPath (targetModel Weights s) d in
  setModels Weights (onlineModel Weights s) (targetModel Weights s) d s.

(** Lines 286-352.  [None]: the training is still under way. *)
Definition setupModelTraining (disk : Sync.Storage Weights)
    (fresh1 fresh2 : Weights) (dice : list Dice) (answers : list State)
    : option Outcome :=
  let '(model, said1) :=
    match Sync.load Weights Sync.mainPath disk with
    | Some w => (w, LoadedSavedModel)
    | None => (fresh1, NoSavedModel)
    end in
  let '(targetModel, said2) :=
    match Sync.load Weights Sync.mainPath disk with
    | Some w => (w, LoadedTargetModel)
    | None => (fresh2, NoTargetModel)
    end in
  match
    trainDinoModel Weights forward units fit sessionConfig model
                   targetModel sessionMemory disk dice answers
  with
  | Finished s => Some (mkOutcome [said1; said2] (finalSave s))
  | Aborted e s =>
      Some (mkOutcome [said1; said2; TrainingError e] (finalSave s))
  | Pending _ => None
  end.

End Boot.

End Setup.

(** A game that is over before the first step. *)
Module Scripts.

Import Encoder.

Definition crashed : State := mkState [] false 93 0 true.

End Scripts.

(* ------------------------------------------------------------------ *)
(** ** The probe of a model: [test] *)

Module Probe.

Import Encoder.

(** What one pass prints: the distance bucket, the predictions for the
    dinosaur on the ground and for the dinosaur in the air. *)
Record ProbeLine : Type := mkProbeLine
  { probed : nat;
    onGround : list R;
    inAir : list R }.

(** Line 255: 88 entries, all 0 except [40] = 105, [41] = 51, [42] = 3
    and [87] = 93. *)
Definition probeVector : list Z :=
  repeat 0%Z 40 ++ [105; 51; 3]%Z ++ repeat 0%Z 44 ++ [93]%Z.

(** The state with one obstacle in the middle of bucket [i] that the
    probe stands for. *)
Definition probeState (i : nat) (jumping : bool) (ypos : Z) : State :=
  mkState [mkObstacle (19 + 16 * Z.of_nat i) 105 51 3] jumping ypos 0 false.

Section Model.

Variable Weights : Type.
Variable forward : Weights -> list Z -> list R.
Variable units : nat.

(** Lines 257-267: one pass of the loop; returns the line printed and
    the vector as the pass leaves it. *)
Definition probePass (model : Weights) (vector : list Z) (i : nat)
    : Exn + (ProbeLine * list Z) :=
  let vector := Js.array_set i 1%Z vector in
  t <- tensor2d vector ;;
  let qValues := Learner.apply Weights forward units model [t] in
  let vector := Js.array_set 86 1%Z vector in
  let vector := Js.array_set 87 20%Z vector in
  t2 <- tensor2d vector ;;
  let qValues2 := Learner.apply Weights forward units model [t2] in
  let line :=
    mkProbeLine i (Learner.dataSync qValues) (Learner.dataSync qValues2) in
  let vector := Js.array_set i 0%Z vector in
  let vector := Js.array_set 86 0%Z vector in
  let vector := Js.array_set 87 93%Z vector in
  inr (line, vector).

(** Line 256: [for (let i = count - 1; i >= 0; i--)]. *)
Fixpoint probeLoop (model : Weights) (vector : list Z) (count : nat)
    : Exn + list ProbeLine :=
  match count with
  | O => inr []
  | S i =>
      match probePass model vector i with
      | inl e => inl e
      | inr (line, vector) =>
          rest <- probeLoop model vector i ;;
          inr (line :: rest)
      end
  end.

Definition test (model : Weights) : Exn + list ProbeLine :=
  probeLoop model probeVector 20.

End Model.

End Probe.

(* ------------------------------------------------------------------ *)
(** * Properties *)

(** ** Array primitives *)

Module JsFacts.

Import Js.

Lemma toInt32_small (z : Z) :
  (- 2 ^ 31 <= z < 2 ^ 31)%Z -> toInt32 z = z.
Proof.
  intros Hz. unfold toInt32.
  rewrite Z.mod_small; lia.
Qed.

Lemma array_set_length (k : nat) (v : Z) (arr : list Z) :
  (k < length arr)%nat -> length (array_set k v arr) = length arr.
Proof.
  revert arr. induction k as [|k IH]; intros [|x rest] Hk; simpl in *;
    try lia.
  rewrite IH; lia.
Qed.

Lemma nth_array_set_same (k : nat) (v d : Z) (arr : list Z) :
  nth k (array_set k v arr) d = v.
Proof.
  revert arr. induction k as [|k IH]; intros [|x rest]; simpl; auto.
Qed.

Lemma nth_array_set_other (j k : nat) (v d : Z) (arr : list Z) :
  j <> k -> (k < length arr)%nat ->
  nth j (array_set k v arr) d = nth j arr d.
Proof.
  revert j arr. induction k as [|k IH]; intros j [|x rest] Hjk Hk;
    simpl in *; try lia.
  - destruct j; [lia | reflexivity].
  - destruct j; [reflexivity | apply IH; lia].
Qed.

Lemma typed_set_length {A : Type} (k : nat) (v : A) (arr : list A) :
  length (typed_set k v arr) = length arr.
Proof.
  revert k. induction arr as [|x rest IH]; intros [|k]; simpl; auto.
Qed.

Lemma nth_typed_set_same {A : Type} (k : nat) (v d : A) (arr : list A) :
  (k < length arr)%nat -> nth k (typed_set k v arr) d = v.
Proof.
  revert k. induction arr as [|x rest IH]; intros [|k] Hk; simpl in *;
    try lia; auto.
  apply IH. lia.
Qed.

Lemma nth_typed_set_other {A : Type} (j k : nat) (v d : A) (arr : list A) :
  j <> k -> nth j (typed_set k v arr) d = nth j arr d.
Proof.
  revert j k. induction arr as [|x rest IH]; intros [|j] [|k] Hjk; simpl;
    try reflexivity; try lia.
  apply IH. lia.
Qed.

Lemma remIsZero_divide (a b : nat) :
  a <> 0%nat -> (remIsZero a b = true <-> Nat.divide b a).
Proof.
  intros Ha. unfold remIsZero. destruct b as [|b].
  - split; [discriminate|]. intros [q Hq]. lia.
  - rewrite Nat.eqb_eq. apply Nat.Lcm0.mod_divide.
Qed.

End JsFacts.

(** ** State encoder *)

Module EncoderFacts.

Import Js JsFacts Encoder.
Open Scope Z_scope.

Example distance_at_appear : distance (mkObstacle 625 0 0 0) = 37.
Proof. reflexivity. Qed.

Example distance_at_crash : distance (mkObstacle 19 0 0 0) = 0.
Proof. reflexivity. Qed.

Example stateToTensor_one_obstacle :
  stateToTensor (mkState [mkObstacle 100 105 51 3] true 93 0 false)
  = inr (repeat 0 5 ++ [1] ++ repeat 0 34 ++ [105; 51; 3]
         ++ repeat 0 43 ++ [1; 93]).
Proof. reflexivity. Qed.

Lemma distance_range (o : Obstacle) : 0 <= distance o <= 39.
Proof. unfold distance. lia. Qed.

Lemma truncDiv_exact (a : Z) :
  - 2 ^ 35 <= a < 2 ^ 35 -> truncDiv a 16 = Z.quot a 16.
Proof.
  intros Ha. unfold truncDiv. apply toInt32_small.
  change (2 ^ 35) with 34359738368 in Ha.
  change (2 ^ 31) with 2147483648.
  pose proof (Z.quot_rem' a 16) as Hqr.
  destruct (Z_le_gt_dec 0 a) as [Hpos | Hneg].
  - assert (H16 : 0 < 16) by lia.
    pose proof (Z.rem_bound_pos a 16 Hpos H16). lia.
  - assert (Ha0 : a <= 0) by lia. assert (H16 : 0 < 16) by lia.
    pose proof (Z.rem_bound_pos_neg a 16 H16 Ha0). lia.
Qed.

Lemma clamp_quot_div (a : Z) :
  Z.max 0 (Z.quot a 16) = Z.max 0 (a / 16).
Proof.
  destruct (Z_le_gt_dec 0 a) as [Hpos | Hneg].
  - rewrite Z.quot_div_nonneg by lia. reflexivity.
  - assert (Hq : Z.quot a 16 <= 0).
    { pose proof (Z.quot_rem' a 16) as Hqr.
      assert (Ha0 : a <= 0) by lia. assert (H16 : 0 < 16) by lia.
      pose proof (Z.rem_bound_pos_neg a 16 H16 Ha0). lia. }
    assert (Hd : a / 16 < 0) by (apply Z.div_lt_upper_bound; lia).
    lia.
Qed.

Lemma obstacleToVector_length (o : Obstacle) (vector : list Z)
    (offset : nat) :
  (offset + 43 <= length vector)%nat ->
  length (obstacleToVector o vector offset) = length vector.
Proof.
  intros Hlen. pose proof (distance_range o) as Hd.
  unfold obstacleToVector.
  repeat (rewrite array_set_length); try lia.
Qed.

Lemma obstacleToVector_outside (o : Obstacle) (vector : list Z)
    (offset k : nat) :
  (offset + 43 <= length vector)%nat ->
  (k < offset \/ offset + 43 <= k)%nat ->
  nth k (obstacleToVector o vector offset) 0 = nth k vector 0.
Proof.
  intros Hlen Hk. pose proof (distance_range o) as Hd.
  unfold obstacleToVector.
  repeat (rewrite nth_array_set_other;
          [ | lia | repeat (rewrite array_set_length); lia ]).
  reflexivity.
Qed.

Lemma obstacleToVector_one_hot (o : Obstacle) (vector : list Z)
    (offset k : nat) :
  (offset + 43 <= length vector)%nat ->
  (k < 40)%nat ->
  nth (offset + k) (obstacleToVector o vector offset) 0
  = if Z.eqb (Z.of_nat k) (distance o) then 1
    else nth (offset + k) vector 0.
Proof.
  intros Hlen Hk. pose proof (distance_range o) as Hd.
  unfold obstacleToVector.
  repeat (rewrite nth_array_set_other;
          [ | lia | repeat (rewrite array_set_length); lia ]).
  destruct (Z.eqb_spec (Z.of_nat k) (distance o)) as [Heq | Hne].
  - rewrite <- Heq, Nat2Z.id. apply nth_array_set_same.
  - apply nth_array_set_other; lia.
Qed.

(** C3 (as stated, refuted): an obstacle far to the right, at
    xPos = 19 + 16 * 2^31, lies beyond 19 + 39*16, the bucket of the
    specification is 39 there, and the code puts it in bucket 0: the
    32-bit coercion of [~~] wraps the quotient to a negative number. *)
Lemma distance_wraps_far_right :
  let o := mkObstacle 34359738387 0 0 0 in
  xPos o >= 19 + 39 * 16
  /\ bucket_spec (xPos o) = 39
  /\ distance o = 0
  /\ distance o <> bucket_spec (xPos o).
Proof. cbv zeta. repeat split; vm_compute; congruence. Qed.

(** C3 (amended): for every obstacle whose quotient (xPos - 19) / 16 fits
    the 32-bit range of [~~] (-2^35 <= xPos - 19 < 2^35, which contains
    the range 19..625 of the game), the bucket is
    clamp(floor((xPos - 19) / 16), 0, 39); it is 0 for xPos <= 19 and 39
    for xPos >= 19 + 39*16, and in the obstacle's 40-wide segment exactly
    the entry at the bucket is set to 1. *)
Theorem distance_is_clamped_bucket (o : Obstacle) :
  - 2 ^ 35 <= xPos o - 19 < 2 ^ 35 ->
  distance o = bucket_spec (xPos o)
  /\ (xPos o <= 19 -> distance o = 0)
  /\ (xPos o >= 19 + 39 * 16 -> distance o = 39)
  /\ (forall (vector : list Z) (offset k : nat),
         (offset + 43 <= length vector)%nat -> (k < 40)%nat ->
         nth (offset + k) (obstacleToVector o vector offset) 0
         = if Z.eqb (Z.of_nat k) (bucket_spec (xPos o)) then 1
           else nth (offset + k) vector 0).
Proof.
  intros Hrange.
  assert (Heq : distance o = bucket_spec (xPos o)).
  { unfold distance, bucket_spec.
    rewrite truncDiv_exact by assumption.
    rewrite clamp_quot_div. reflexivity. }
  split; [exact Heq|].
  split; [|split].
  - intros Hle. rewrite Heq. unfold bucket_spec.
    assert ((xPos o - 19) / 16 <= 0).
    { apply Z.div_le_upper_bound; lia. }
    lia.
  - intros Hge. rewrite Heq. unfold bucket_spec.
    assert (39 <= (xPos o - 19) / 16).
    { apply Z.div_le_lower_bound; lia. }
    lia.
  - intros vector offset k Hlen Hk. rewrite <- Heq.
    apply obstacleToVector_one_hot; assumption.
Qed.

Lemma distance_is_clamped_bucket_witness :
  let o := mkObstacle 625 105 51 3 in
  (- 2 ^ 35 <= xPos o - 19 < 2 ^ 35)
  /\ distance o = bucket_spec (xPos o).
Proof.
  cbv zeta. split.
  - simpl. lia.
  - apply (distance_is_clamped_bucket (mkObstacle 625 105 51 3)).
    simpl. lia.
Defined.

Lemma stateToTensor_vector_length (s : State) (v : list Z) :
  stateToTensor s = inr v -> length v = 88%nat.
Proof.
  unfold stateToTensor, tensor2d.
  match goal with |- context [Nat.eqb ?n 88] =>
    destruct (Nat.eqb_spec n 88) as [Hl | Hl] end.
  - intros H. injection H as <-. exact Hl.
  - discriminate.
Qed.

Lemma tail_written (blocks : list Z) (j : bool) (y : Z) :
  length blocks = 88%nat ->
  exists v : list Z,
    tensor2d (array_set 87 y (if j then array_set 86 1 blocks else blocks))
    = inr v
    /\ length v = 88%nat
    /\ forall k : nat, (k < 86)%nat -> nth k v 0 = nth k blocks 0.
Proof.
  intros Hb.
  set (flagged := if j then array_set 86 1 blocks else blocks).
  assert (Hf : length flagged = 88%nat).
  { unfold flagged. destruct j; auto. rewrite array_set_length; lia. }
  assert (Hlen : length (array_set 87 y flagged) = 88%nat).
  { rewrite array_set_length; lia. }
  exists (array_set 87 y flagged). unfold tensor2d. rewrite Hlen.
  split; [reflexivity|]. split; [reflexivity|].
  intros k Hk. rewrite nth_array_set_other by lia.
  unfold flagged. destruct j; auto.
  rewrite nth_array_set_other by lia. reflexivity.
Qed.

Lemma stateToTensor_returns (s : State) :
  exists v : list Z, stateToTensor s = inr v.
Proof.
  destruct s as [obs j y t d]. unfold stateToTensor.
  cbn [obstacles jumping ypos]. cbv zeta.
  assert (Hb : length
                 (match obs with
                  | [] => repeat 0 88
                  | o0 :: rest =>
                      match rest with
                      | [] => obstacleToVector o0 (repeat 0 88) 0
                      | o1 :: _ =>
                          obstacleToVector o1
                            (obstacleToVector o0 (repeat 0 88) 0) 43
                      end
                  end) = 88%nat).
  { destruct obs as [|o0 [|o1 rest]].
    - apply repeat_length.
    - rewrite obstacleToVector_length; rewrite ?repeat_length; lia.
    - rewrite !obstacleToVector_length; rewrite ?repeat_length; try lia.
      rewrite obstacleToVector_length; rewrite ?repeat_length; lia. }
  destruct (tail_written _ j y Hb) as (v & Hv & _).
  exists v. exact Hv.
Qed.

(** On the well-formed states [stateToTensor] never raises: it returns a
    vector of 88 entries; with fewer than two obstacles the second
    43-wide block is all zero, and with no obstacle both blocks are. *)
Theorem stateToTensor_total (s : State) :
  exists v : list Z,
    stateToTensor s = inr v
    /\ length v = 88%nat
    /\ ((length (obstacles s) < 2)%nat ->
        forall k : nat, (43 <= k < 86)%nat -> nth k v 0 = 0)
    /\ (obstacles s = [] ->
        forall k : nat, (k < 86)%nat -> nth k v 0 = 0).
Proof.
  destruct s as [obs j y t d]. unfold stateToTensor.
  cbn [obstacles jumping ypos]. cbv zeta.
  assert (Hz : length (repeat 0 88) = 88%nat) by apply repeat_length.
  assert (Hzn : forall k, nth k (repeat 0 88) 0 = 0).
  { intros k. apply nth_repeat. }
  destruct obs as [|o0 [|o1 rest]].
  - destruct (tail_written (repeat 0 88) j y Hz) as (v & Hv & Hl & Hk).
    exists v. repeat split; auto.
    + intros _ k Hk'. rewrite Hk by lia. apply Hzn.
    + intros _ k Hk'. rewrite Hk by lia. apply Hzn.
  - assert (Hb : length (obstacleToVector o0 (repeat 0 88) 0) = 88%nat).
    { rewrite obstacleToVector_length; lia. }
    destruct (tail_written _ j y Hb) as (v & Hv & Hl & Hk).
    exists v. repeat split; auto.
    + intros _ k Hk'. rewrite Hk by lia.
      rewrite obstacleToVector_outside by lia. apply Hzn.
    + discriminate.
  - assert (Hb0 : length (obstacleToVector o0 (repeat 0 88) 0) = 88%nat).
    { rewrite obstacleToVector_length; lia. }
    assert (Hb : length (obstacleToVector o1
                           (obstacleToVector o0 (repeat 0 88) 0) 43)
                 = 88%nat).
    { rewrite obstacleToVector_length; lia. }
    destruct (tail_written _ j y Hb) as (v & Hv & Hl & Hk).
    exists v. repeat split; auto.
    + simpl. lia.
    + discriminate.
Qed.

Lemma stateToTensor_total_witness :
  exists v : list Z,
    stateToTensor (mkState [mkObstacle 100 105 51 3] true 93 0 false)
    = inr v
    /\ length v = 88%nat.
Proof.
  destruct (stateToTensor_total
              (mkState [mkObstacle 100 105 51 3] true 93 0 false))
    as (v & Hv & Hlen & _).
  exists v. split; assumption.
Defined.

End EncoderFacts.

(** ** The encoder on raw values *)

Module RawEncoderFacts.

Import Js JsFacts Encoder EncoderFacts RawEncoder.
Open Scope Z_scope.

(** On a well-formed state the raw encoder is [stateToTensor]. *)
Lemma stateToTensorRaw_ofState (s : State) :
  stateToTensorRaw (ofState s)
  = match stateToTensor s with
    | inr v => inr v
    | inl e => inl (TensorError e)
    end.
Proof.
  destruct s as [obs j y t d].
  unfold stateToTensorRaw, finish, stateToTensor, ofState.
  cbn [rawObstacles rawJumping rawYpos obstacles jumping ypos]. cbv zeta.
  destruct obs as [|o0 [|o1 rest]]; reflexivity.
Qed.

Lemma wellFormed_ofState (s : State) : wellFormed (ofState s) = true.
Proof.
  destruct s as [obs j y t d]. unfold wellFormed, ofState.
  cbn [rawObstacles obstacles].
  destruct obs as [|o0 [|o1 rest]]; reflexivity.
Qed.

Lemma finish_returns (state : RawState) (blocks : list Z) :
  length blocks = 88%nat ->
  exists v : list Z,
    finish state blocks = inr v
    /\ length v = 88%nat
    /\ forall k : nat, (k < 86)%nat -> nth k v 0 = nth k blocks 0.
Proof.
  intros Hb.
  destruct (tail_written blocks (rawJumping state) (rawYpos state) Hb)
    as (v & Hv & Hl & Hk).
  exists v. unfold finish. cbv zeta. rewrite Hv. repeat split; assumption.
Qed.

(** C8 (as stated, refuted): the encoder has an error path.  A value
    without an [obstacles] field and a value whose first obstacle is
    [null] make it raise a [TypeError]; no vector is returned, zero-filled
    or other. *)
Lemma stateToTensor_raises_on_malformed :
  stateToTensorRaw (mkRawState None false 93 0 false) = inl TypeError
  /\ stateToTensorRaw (mkRawState (Some [None]) false 93 0 false)
     = inl TypeError
  /\ ~ (exists v : list Z,
          stateToTensorRaw (mkRawState None false 93 0 false) = inr v
          /\ length v = 88%nat).
Proof.
  split; [reflexivity|]. split; [reflexivity|].
  intros (v & Hv & _). discriminate.
Qed.

(** C8 (amended): for every state whose [obstacles] field is an array and
    whose first two entries, as far as present, are obstacle objects,
    [stateToTensor] returns a vector of 88 entries; with fewer than two
    obstacles the second 43-wide block is all zero, and with no obstacle
    both blocks are.  On every other value it raises a [TypeError]: it is
    not total on malformed input. *)
Theorem stateToTensor_total_on_well_formed (state : RawState) :
  (wellFormed state = true ->
   exists v : list Z,
     stateToTensorRaw state = inr v
     /\ length v = 88%nat
     /\ (forall entries : list (option Obstacle),
            rawObstacles state = Some entries ->
            (length entries < 2)%nat ->
            forall k : nat, (43 <= k < 86)%nat -> nth k v 0 = 0)
     /\ (rawObstacles state = Some [] ->
         forall k : nat, (k < 86)%nat -> nth k v 0 = 0))
  /\ (wellFormed state = false -> stateToTensorRaw state = inl TypeError).
Proof.
  assert (Hz : length (repeat 0 88) = 88%nat) by apply repeat_length.
  assert (Hzn : forall k, nth k (repeat 0 88) 0 = 0).
  { intros k. apply nth_repeat. }
  unfold wellFormed, stateToTensorRaw. cbv zeta.
  destruct (rawObstacles state) as [[|[o0|] [|[o1|] rest]]|] eqn:Hobs;
    (split; [intros Hwf | intros Hwf]);
    try discriminate; try reflexivity.
  - destruct (finish_returns state (repeat 0 88) Hz) as (v & Hv & Hl & Hk).
    exists v. split; [exact Hv|]. split; [exact Hl|]. split.
    + intros entries _ _ k Hk'. rewrite Hk by lia. apply Hzn.
    + intros _ k Hk'. rewrite Hk by lia. apply Hzn.
  - assert (Hb : length (obstacleToVector o0 (repeat 0 88) 0) = 88%nat).
    { rewrite obstacleToVector_length; lia. }
    destruct (finish_returns state _ Hb) as (v & Hv & Hl & Hk).
    exists v. split; [exact Hv|]. split; [exact Hl|]. split.
    + intros entries _ _ k Hk'. rewrite Hk by lia.
      rewrite obstacleToVector_outside by lia. apply Hzn.
    + discriminate.
  - assert (Hb0 : length (obstacleToVector o0 (repeat 0 88) 0) = 88%nat).
    { rewrite obstacleToVector_length; lia. }
    assert (Hb : length (obstacleToVector o1
                           (obstacleToVector o0 (repeat 0 88) 0) 43)
                 = 88%nat).
    { rewrite obstacleToVector_length; lia. }
    destruct (finish_returns state _ Hb) as (v & Hv & Hl & Hk).
    exists v. split; [exact Hv|]. split; [exact Hl|]. split.
    + intros entries Hent Hlen. injection Hent as <-. simpl in Hlen. lia.
    + discriminate.
Qed.

Lemma stateToTensor_total_on_well_formed_witness :
  let state :=
    mkRawState (Some [Some (mkObstacle 100 105 51 3)]) true 93 0 false in
  wellFormed state = true
  /\ exists v : list Z,
       stateToTensorRaw state = inr v /\ length v = 88%nat.
Proof.
  cbv zeta. split; [reflexivity|].
  destruct (proj1 (stateToTensor_total_on_well_formed
                     (mkRawState (Some [Some (mkObstacle 100 105 51 3)])
                                 true 93 0 false)) eq_refl)
    as (v & Hv & Hl & _).
  exists v. split; assumption.
Defined.

End RawEncoderFacts.

(** ** Learner *)

Module LearnerFacts.

Import Js JsFacts Replay Learner Toy.
Open Scope R_scope.

(** *** Flat row-major data *)

Lemma skipn_cons_inv {A : Type} (k : nat) (l : list A) (x d : A)
    (rest : list A) :
  skipn k l = x :: rest ->
  (k < length l)%nat /\ nth k l d = x /\ skipn (S k) l = rest.
Proof.
  revert l. induction k as [|k IH]; intros [|y l] H; simpl in H;
    try discriminate.
  - injection H as -> ->. simpl. repeat split. lia.
  - destruct (IH l H) as (Hlt & Hn & Hs). simpl. repeat split; auto. lia.
Qed.

Lemma concat_skip_rows (n i : nat) (rows : list (list R)) :
  Forall (fun r => length r = n) rows ->
  skipn (i * n) (concat rows) = concat (skipn i rows).
Proof.
  intros Hrows. revert i.
  induction Hrows as [|r rows Hr Hrows IH]; intros i.
  - rewrite !skipn_nil. reflexivity.
  - destruct i as [|i]; [reflexivity|].
    simpl. rewrite <- IH.
    replace (n + i * n)%nat with (length r + i * n)%nat by lia.
    rewrite skipn_app, skipn_all2 by lia. simpl.
    f_equal. lia.
Qed.

Lemma concat_row_slice (n i : nat) (rows : list (list R)) (row : list R) :
  Forall (fun r => length r = n) rows ->
  nth_error rows i = Some row ->
  slice (i * n) ((i + 1) * n) (concat rows) = row.
Proof.
  intros Hrows Hi. unfold slice.
  replace ((i + 1) * n - i * n)%nat with n by lia.
  rewrite (concat_skip_rows n i rows Hrows).
  assert (Hlen : length row = n).
  { rewrite Forall_forall in Hrows. apply Hrows.
    eapply nth_error_In; eassumption. }
  revert i Hi. clear Hrows.
  induction rows as [|r rows IH]; intros [|i] Hi; simpl in Hi;
    try discriminate.
  - injection Hi as ->. simpl.
    rewrite firstn_app, Hlen, Nat.sub_diag. simpl.
    rewrite <- Hlen, firstn_all, app_nil_r. reflexivity.
  - simpl. apply IH. assumption.
Qed.

Lemma concat_row_entry (n i j : nat) (rows : list (list R)) (row : list R) :
  Forall (fun r => length r = n) rows ->
  nth_error rows i = Some row ->
  (j < n)%nat ->
  nth (n * i + j) (concat rows) 0 = nth j row 0.
Proof.
  intros Hrows Hi Hj.
  pose proof (concat_row_slice n i rows row Hrows Hi) as Hs.
  unfold slice in Hs.
  replace ((i + 1) * n - i * n)%nat with n in Hs by lia.
  rewrite <- Hs.
  rewrite nth_firstn.
  destruct (Nat.ltb_spec j n) as [_ | Hge]; [|lia].
  rewrite nth_skipn. f_equal. lia.
Qed.

(** *** [argMax] returns an index of a largest entry *)

Lemma argMaxFrom_greatest (l : list R) :
  forall (row : list R) (best : R) (bestIndex index : nat),
    skipn index l = row ->
    (bestIndex < index <= length l)%nat ->
    nth bestIndex l 0 = best ->
    (forall j, (j < index)%nat -> nth j l 0 <= best) ->
    (argMaxFrom best bestIndex index row < length l)%nat
    /\ forall j, (j < length l)%nat ->
         nth j l 0 <= nth (argMaxFrom best bestIndex index row) l 0.
Proof.
  induction row as [|x rest IH]; intros best bi idx Hs Hidx Hb Hmax.
  - simpl.
    assert (Hlen : (length l <= idx)%nat).
    { destruct (Nat.le_gt_cases (length l) idx) as [H | H]; auto.
      assert (Hl : length (skipn idx l) = (length l - idx)%nat)
        by apply length_skipn.
      rewrite Hs in Hl. simpl in Hl. lia. }
    split; [lia|]. intros j Hj. rewrite Hb. apply Hmax. lia.
  - destruct (skipn_cons_inv idx l x 0 rest Hs) as (Hlt & Hx & Hrest).
    simpl. destruct (Rlt_dec best x) as [Hbx | Hbx].
    + apply IH; auto; try lia.
      intros j Hj. destruct (Nat.eq_dec j idx) as [-> | Hne].
      * rewrite Hx. lra.
      * specialize (Hmax j ltac:(lia)). lra.
    + apply IH; auto; try lia.
      intros j Hj. destruct (Nat.eq_dec j idx) as [-> | Hne].
      * rewrite Hx. lra.
      * apply Hmax. lia.
Qed.

Lemma argMaxRow_greatest (row : list R) :
  row <> [] ->
  (argMaxRow row < length row)%nat
  /\ forall j, (j < length row)%nat ->
       nth j row 0 <= nth (argMaxRow row) row 0.
Proof.
  destruct row as [|x rest]; [congruence|]. intros _.
  unfold argMaxRow.
  apply (argMaxFrom_greatest (x :: rest) rest x 0%nat 1%nat).
  - reflexivity.
  - simpl. lia.
  - reflexivity.
  - intros j Hj. replace j with 0%nat by lia. simpl. lra.
Qed.

(** Ties go to the first index: every entry before the chosen one is
    strictly smaller. *)
Lemma argMaxFrom_first (l : list R) :
  forall (row : list R) (best : R) (bestIndex index : nat),
    skipn index l = row ->
    (bestIndex < index)%nat ->
    nth bestIndex l 0 = best ->
    (forall j, (j < bestIndex)%nat -> nth j l 0 < best) ->
    (forall j, (j < index)%nat -> nth j l 0 <= best) ->
    forall j, (j < argMaxFrom best bestIndex index row)%nat ->
      nth j l 0 < nth (argMaxFrom best bestIndex index row) l 0.
Proof.
  induction row as [|x rest IH];
    intros best bi idx Hs Hidx Hb Hfirst Hmax j Hj.
  - simpl in *. rewrite Hb. apply Hfirst. exact Hj.
  - destruct (skipn_cons_inv idx l x 0 rest Hs) as (Hlt & Hx & Hrest).
    simpl in *. destruct (Rlt_dec best x) as [Hbx | Hbx].
    + apply (IH x idx (S idx)); auto.
      * intros k Hk. specialize (Hmax k Hk). lra.
      * intros k Hk. destruct (Nat.eq_dec k idx) as [-> | Hne].
        -- rewrite Hx. lra.
        -- specialize (Hmax k ltac:(lia)). lra.
    + apply (IH best bi (S idx)); auto.
      intros k Hk. destruct (Nat.eq_dec k idx) as [-> | Hne].
      * rewrite Hx. lra.
      * apply Hmax. lia.
Qed.

Lemma argMaxRow_first (row : list R) (j : nat) :
  (j < argMaxRow row)%nat -> nth j row 0 < nth (argMaxRow row) row 0.
Proof.
  destruct row as [|x rest]; [simpl; lia|].
  unfold argMaxRow.
  apply (argMaxFrom_first (x :: rest) rest x 0%nat 1%nat).
  - reflexivity.
  - lia.
  - reflexivity.
  - intros k Hk. lia.
  - intros k Hk. replace k with 0%nat by lia. simpl. lra.
Qed.

Section Model.

Variable Weights : Type.
Variable forward : Weights -> list Z -> list R.
Variable units : nat.

Hypothesis forward_width :
  forall (w : Weights) (x : list Z), length (forward w x) = units.

Lemma apply_rows_width (w : Weights) (batch : list (list Z)) :
  Forall (fun r => length r = units)
         (rows (apply Weights forward units w batch)).
Proof.
  simpl. apply Forall_forall. intros r Hr.
  apply in_map_iff in Hr. destruct Hr as (x & <- & _).
  apply forward_width.
Qed.

(** The row built for the [k]-th entry of the rest of the batch. *)
Lemma targetsLoop_row (qs ts : list R) (acts : list nat) (n : nat)
    (gamma : R) :
  forall (experiences : list Transition) (i k : nat) (e : Transition),
    nth_error experiences k = Some e ->
    nth_error
      (targetsLoop qs ts acts n gamma i experiences) k
    = Some (typed_set (action e)
              (targetQValue ts acts n gamma (i + k) e)
              (slice ((i + k) * n) ((i + k + 1) * n) qs)).
Proof.
  induction experiences as [|x rest IH]; intros i k e Hk.
  - destruct k; discriminate.
  - destruct k as [|k]; simpl in Hk.
    + injection Hk as ->. simpl. rewrite Nat.add_0_r. reflexivity.
    + simpl. rewrite (IH (S i) k e Hk).
      replace (S i + k)%nat with (i + S k)%nat by lia. reflexivity.
Qed.

(** The target vector of the [i]-th entry of a batch: the online
    model's prediction for its state, with the entry of the action
    taken replaced by the value of lines 194-203. *)
Lemma regressionTargets_row (onlineModel targetModel : Weights)
    (experiences : list Transition) (gamma : R) (i : nat)
    (e : Transition) :
  nth_error experiences i = Some e ->
  nth_error
    (snd (regressionTargets Weights forward units onlineModel targetModel
            experiences gamma)) i
  = Some (typed_set (action e)
           (if done e then reward e
            else reward e
                 + gamma
                   * nth (argMaxRow (forward onlineModel (nextState e)))
                         (forward targetModel (nextState e)) 0)
           (forward onlineModel (state e))).
Proof.
  intros Hi. unfold regressionTargets. cbn [snd].
  rewrite (targetsLoop_row _ _ _ _ _ experiences 0 i e Hi).
  cbn [Nat.add]. f_equal. f_equal.
  - unfold targetQValue. destruct (done e); [reflexivity|].
    f_equal. f_equal.
    assert (Ha : nth i (argMax (apply Weights forward units onlineModel
                                  (map nextState experiences))) 0%nat
                 = argMaxRow (forward onlineModel (nextState e))).
    { unfold argMax, apply. cbn [rows].
      rewrite !List.map_map.
      apply nth_error_nth.
      rewrite nth_error_map, Hi. reflexivity. }
    rewrite Ha. cbn [shape1 apply].
    destruct (Nat.lt_ge_cases
                (argMaxRow (forward onlineModel (nextState e))) units)
      as [Hlt | Hge].
    + apply (concat_row_entry units i _ _
               (forward targetModel (nextState e))).
      * apply (apply_rows_width targetModel (map nextState experiences)).
      * unfold apply. cbn [rows].
        rewrite List.map_map, nth_error_map, Hi. reflexivity.
      * assumption.
    + (* the width is 0: both sides read past the end *)
      assert (Hrow : forward onlineModel (nextState e) = []
                     \/ forward onlineModel (nextState e) <> []).
      { destruct (forward onlineModel (nextState e));
          [left; reflexivity | right; discriminate]. }
      destruct Hrow as [Hnil | Hne].
      * assert (Hu : units = 0%nat).
        { rewrite <- (forward_width onlineModel (nextState e)), Hnil.
          reflexivity. }
        assert (Hts : dataSync (apply Weights forward units targetModel
                                  (map nextState experiences)) = []).
        { unfold dataSync, apply. cbn [rows].
          apply concat_nil_Forall. apply Forall_forall.
          intros r Hr. apply in_map_iff in Hr.
          destruct Hr as (x & <- & _).
          apply length_zero_iff_nil. rewrite forward_width. exact Hu. }
        rewrite Hts.
        assert (Ht : forward targetModel (nextState e) = []).
        { apply length_zero_iff_nil. rewrite forward_width. exact Hu. }
        rewrite Ht. rewrite !nth_overflow by (simpl; lia). reflexivity.
      * destruct (argMaxRow_greatest _ Hne) as [Hlt _].
        rewrite forward_width in Hlt. lia.
  - cbn [shape1 apply].
    apply (concat_row_slice units i _ (forward onlineModel (state e))).
    + apply (apply_rows_width onlineModel (map state experiences)).
    + unfold apply. cbn [rows].
      rewrite List.map_map, nth_error_map, Hi. reflexivity.
Qed.

Variable fit :
  Weights -> list (list Z) -> list (list R) -> nat -> Exn + (Weights * R).

(** [optimizeModel] fits the online model on the states of the batch
    against the targets of [regressionTargets]. *)
Lemma optimizeModel_fit (onlineModel targetModel : Weights)
    (experiences : list Transition) (gamma : R) (batchSize : nat) :
  experiences <> [] ->
  optimizeModel Weights forward units fit onlineModel targetModel
                experiences gamma batchSize
  = fit onlineModel (map state experiences)
        (snd (regressionTargets Weights forward units onlineModel
                targetModel experiences gamma))
        batchSize.
Proof.
  intros Hne. destruct experiences as [|e rest]; [congruence|].
  reflexivity.
Qed.

Lemma entry_of_nonempty (experiences : list Transition) (i : nat)
    (e : Transition) :
  nth_error experiences i = Some e -> experiences <> [].
Proof.
  intros Hi Hnil. rewrite Hnil in Hi. destruct i; discriminate.
Qed.

Lemma typed_set_row (e : Transition) (v : R) (w : Weights) :
  (action e < units)%nat ->
  length (typed_set (action e) v (forward w (state e))) = units
  /\ nth (action e) (typed_set (action e) v (forward w (state e))) 0 = v
  /\ forall a : nat, a <> action e ->
       nth a (typed_set (action e) v (forward w (state e))) 0
       = nth a (forward w (state e)) 0.
Proof.
  intros Ha. split; [|split].
  - rewrite typed_set_length. apply forward_width.
  - apply nth_typed_set_same. rewrite forward_width. exact Ha.
  - intros a Hne. apply nth_typed_set_other. exact Hne.
Qed.

(** C1: for every entry of the batch with done = false, the target
    vector fitted for it holds, at the index of the action taken,
    reward + gamma * targetModel(nextState)[nextAction], where
    nextAction is an index at which onlineModel(nextState) is largest,
    and at every other index the online model's own prediction for the
    entry's state. *)
Theorem double_dqn_target (onlineModel targetModel : Weights)
    (experiences : list Transition) (gamma : R) (batchSize i : nat)
    (e : Transition) :
  nth_error experiences i = Some e ->
  done e = false ->
  (action e < units)%nat ->
  exists (targets : list (list R)) (row : list R),
    optimizeModel Weights forward units fit onlineModel targetModel
                  experiences gamma batchSize
    = fit onlineModel (map state experiences) targets batchSize
    /\ nth_error targets i = Some row
    /\ length row = units
    /\ (let nextQ := forward onlineModel (nextState e) in
        let nextAction := argMaxRow nextQ in
        (nextAction < units)%nat
        /\ (forall a : nat, (a < units)%nat ->
              nth a nextQ 0 <= nth nextAction nextQ 0)
        /\ nth (action e) row 0
           = reward e
             + gamma * nth nextAction (forward targetModel (nextState e)) 0)
    /\ (forall a : nat, a <> action e ->
          nth a row 0 = nth a (forward onlineModel (state e)) 0).
Proof.
  intros Hi Hdone Ha.
  pose proof (regressionTargets_row onlineModel targetModel experiences
                gamma i e Hi) as Hrow.
  rewrite Hdone in Hrow.
  eexists. eexists.
  split; [apply optimizeModel_fit; exact (entry_of_nonempty _ _ _ Hi)|].
  split; [exact Hrow|].
  destruct (typed_set_row e
              (reward e
               + gamma
                 * nth (argMaxRow (forward onlineModel (nextState e)))
                       (forward targetModel (nextState e)) 0)
              onlineModel Ha) as (Hlen & Hsame & Hother).
  split; [exact Hlen|]. split; [|exact Hother].
  cbv zeta.
  assert (Hne : forward onlineModel (nextState e) <> []).
  { intros Hnil.
    pose proof (forward_width onlineModel (nextState e)) as Hw.
    rewrite Hnil in Hw. simpl in Hw. lia. }
  destruct (argMaxRow_greatest _ Hne) as [Hlt Hmax].
  rewrite forward_width in Hlt, Hmax.
  repeat split; assumption.
Qed.

(** C2: for every entry of the batch with done = true, the target
    vector fitted for it holds exactly the entry's reward at the index
    of the action taken, whatever [gamma] and the target model are; the
    other entries are the online model's prediction. *)
Theorem terminal_target_is_reward (onlineModel targetModel : Weights)
    (experiences : list Transition) (gamma : R) (batchSize i : nat)
    (e : Transition) :
  nth_error experiences i = Some e ->
  done e = true ->
  (action e < units)%nat ->
  exists (targets : list (list R)) (row : list R),
    optimizeModel Weights forward units fit onlineModel targetModel
                  experiences gamma batchSize
    = fit onlineModel (map state experiences) targets batchSize
    /\ nth_error targets i = Some row
    /\ length row = units
    /\ nth (action e) row 0 = reward e
    /\ (forall a : nat, a <> action e ->
          nth a row 0 = nth a (forward onlineModel (state e)) 0).
Proof.
  intros Hi Hdone Ha.
  pose proof (regressionTargets_row onlineModel targetModel experiences
                gamma i e Hi) as Hrow.
  rewrite Hdone in Hrow.
  eexists. eexists.
  split; [apply optimizeModel_fit; exact (entry_of_nonempty _ _ _ Hi)|].
  split; [exact Hrow|].
  destruct (typed_set_row e (reward e) onlineModel Ha)
    as (Hlen & Hsame & Hother).
  repeat split; assumption.
Qed.

End Model.

Lemma toyForward_width (w : nat) (x : list Z) :
  length (toyForward w x) = 2%nat.
Proof. reflexivity. Defined.

Lemma double_dqn_target_witness :
  nth_error [toyCrash; toyRunning] 1 = Some toyRunning
  /\ done toyRunning = false
  /\ (action toyRunning < 2)%nat
  /\ exists (targets : list (list R)) (row : list R),
       optimizeModel nat toyForward 2 toyFit 0%nat 3%nat
                     [toyCrash; toyRunning] (9 / 10) 2
       = toyFit 0%nat (map state [toyCrash; toyRunning]) targets 2%nat
       /\ nth_error targets 1 = Some row
       /\ length row = 2%nat.
Proof.
  split; [reflexivity|]. split; [reflexivity|]. split; [simpl; lia|].
  destruct (double_dqn_target nat toyForward 2 toyForward_width toyFit
              0%nat 3%nat [toyCrash; toyRunning] (9 / 10) 2%nat 1%nat
              toyRunning eq_refl eq_refl)
    as (targets & row & Hfit & Hrow & Hlen & _).
  - simpl; lia.
  - exists targets, row. repeat split; assumption.
Defined.

Lemma terminal_target_is_reward_witness :
  nth_error [toyCrash; toyRunning] 0 = Some toyCrash
  /\ done toyCrash = true
  /\ (action toyCrash < 2)%nat
  /\ exists (targets : list (list R)) (row : list R),
       optimizeModel nat toyForward 2 toyFit 0%nat 3%nat
                     [toyCrash; toyRunning] (9 / 10) 2
       = toyFit 0%nat (map state [toyCrash; toyRunning]) targets 2%nat
       /\ nth_error targets 0 = Some row
       /\ nth (action toyCrash) row 0 = reward toyCrash.
Proof.
  split; [reflexivity|]. split; [reflexivity|]. split; [simpl; lia|].
  destruct (terminal_target_is_reward nat toyForward 2 toyForward_width
              toyFit 0%nat 3%nat [toyCrash; toyRunning] (9 / 10) 2%nat
              0%nat toyCrash eq_refl eq_refl)
    as (targets & row & Hfit & Hrow & Hlen & Hval & _).
  - simpl; lia.
  - exists targets, row. repeat split; assumption.
Defined.

(** The targets of the two-entry batch, computed. *)
Example toy_targets :
  snd (regressionTargets nat toyForward 2 0%nat 3%nat
         [toyCrash; toyRunning] (9 / 10))
  = [[-1; 1]; [0; 1 / 10 + 9 / 10 * 1]].
Proof.
  unfold regressionTargets, apply, argMax, dataSync, targetsLoop,
    targetQValue, slice, toyForward, argMaxRow, argMaxFrom.
  simpl.
  destruct (Rlt_dec 0 1) as [_ | H]; [reflexivity | exfalso; lra].
Qed.

End LearnerFacts.

(** ** Training loop *)

Module TrainingFacts.

Import Encoder EncoderFacts Training Toy.

Lemma inWindow_true (state nextState : State) :
  inWindow state nextState = true
  <-> (40 <= time nextState - time state <= 60)%Z.
Proof.
  unfold inWindow. rewrite negb_true_iff, orb_false_iff.
  rewrite Z.ltb_ge, Z.gtb_ltb, Z.ltb_ge. lia.
Qed.

Lemma inWindow_false (state nextState : State) :
  inWindow state nextState = false
  <-> (time nextState - time state < 40
       \/ time nextState - time state > 60)%Z.
Proof.
  unfold inWindow. rewrite negb_false_iff, orb_true_iff.
  rewrite Z.ltb_lt, Z.gtb_ltb, Z.ltb_lt. lia.
Qed.

Section Loop.

Variable Weights : Type.
Variable forward : Weights -> list Z -> list R.
Variable units : nat.

Abbreviation Session := (Session Weights).
Abbreviation Fit :=
  (Weights -> list (list Z) -> list (list R) -> nat -> Exn + (Weights * R)).

(** *** The step evaluation, branch by branch *)

Lemma evaluateStep_discard (cfg : Config) (episode : nat) (s : Session)
    (state : State) (stateTensor : list Z) (action : nat)
    (nextState : State) :
  inWindow state nextState = false ->
  evaluateStep Weights cfg episode s state stateTensor action nextState
  = inr (if done nextState then s
         else print Weights (Warn (time nextState - time state)) s).
Proof.
  unfold inWindow, evaluateStep. intros H.
  apply negb_false_iff in H. cbv zeta. rewrite H.
  destruct (done nextState); reflexivity.
Qed.

Lemma evaluateStep_accept (cfg : Config) (episode : nat) (s : Session)
    (state : State) (stateTensor : list Z) (action : nat)
    (nextState : State) :
  inWindow state nextState = true ->
  exists nextStateTensor : list Z,
    stateToTensor nextState = inr nextStateTensor
    /\ evaluateStep Weights cfg episode s state stateTensor action nextState
       = inr (setEpsilon Weights (decayedEpsilon cfg episode)
                (store Weights
                   (Replay.mkTransition stateTensor action
                      (rewardFor nextState action) nextStateTensor
                      (done nextState))
                   (accumulate Weights (rewardFor nextState action) s))).
Proof.
  unfold inWindow, evaluateStep. intros H.
  apply negb_true_iff in H. cbv zeta. rewrite H.
  destruct (stateToTensor_returns nextState) as (v & Hv).
  exists v. rewrite Hv. split; reflexivity.
Qed.

Lemma evaluateStep_epsilon (cfg : Config) (episode : nat) (s s' : Session)
    (state : State) (stateTensor : list Z) (action : nat)
    (nextState : State) :
  evaluateStep Weights cfg episode s state stateTensor action nextState
  = inr s' ->
  epsilon Weights s'
  = if inWindow state nextState then decayedEpsilon cfg episode
    else epsilon Weights s.
Proof.
  intros He. destruct (inWindow state nextState) eqn:Hw.
  - destruct (evaluateStep_accept cfg episode s state stateTensor action
                nextState Hw) as (v & _ & Hacc).
    rewrite Hacc in He. injection He as <-. reflexivity.
  - rewrite (evaluateStep_discard cfg episode s state stateTensor action
               nextState Hw) in He.
    injection He as <-. destruct (done nextState); reflexivity.
Qed.

(** The optimisation step touches the online model and the console
    only. *)
Lemma optimizationStep_keeps (fit : Fit) (cfg : Config) (s : Session)
    (d : Dice) :
  let s1 := optimizationStep Weights forward units fit cfg s d in
  epsilon Weights s1 = epsilon Weights s
  /\ episodeReward Weights s1 = episodeReward Weights s
  /\ memory Weights s1 = memory Weights s
  /\ targetModel Weights s1 = targetModel Weights s
  /\ disk Weights s1 = disk Weights s
  /\ logs Weights s1 = logs Weights s.
Proof.
  cbv zeta. unfold optimizationStep.
  destruct (Nat.leb _ _); [|repeat split; reflexivity].
  destruct (tryBlock _ _ _ _ _ _ _) as [e | [model loss]];
    repeat split; reflexivity.
Qed.

(** The polling loop only stops on a terminal state or once 40 ms have
    passed: inside the loop a discarded step that is too early is always
    a terminal one. *)
Lemma poll_stops (state nextState : State) (answers rest : list State) :
  poll state answers = Some (nextState, rest) ->
  done nextState = true \/ (40 <= time nextState - time state)%Z.
Proof.
  induction answers as [|a answers IH]; simpl; [discriminate|].
  destruct (done a) eqn:Hd; simpl.
  - intros H. injection H as <- _. left. exact Hd.
  - destruct (Z.ltb_spec (time a - time state) 40) as [Hlt | Hge].
    + exact IH.
    + intros H. injection H as <- _. right. exact Hge.
Qed.

(** C4: a step whose time delta is below 40 ms or above 60 ms is
    discarded: the replay memory, the episode reward and epsilon are
    unchanged (as are both models and the storage); the console gets a
    warning exactly when the next state is not terminal.  In
    particular a non-terminal step with delta 25 ms is discarded (with a
    warning), and a step with delta 45 ms is accepted: its transition
    enters the replay memory.  The same holds for the whole iteration
    of the loop, optimisation step included; there a delta below 40 ms
    only occurs with a terminal next state. *)
Theorem step_outside_window_discarded (cfg : Config) (episode : nat)
    (s : Session) (state : State) (stateTensor : list Z) (action : nat)
    (nextState : State) :
  let timeDelta := (time nextState - time state)%Z in
  ((timeDelta < 40 \/ timeDelta > 60)%Z ->
   exists s' : Session,
     evaluateStep Weights cfg episode s state stateTensor action nextState
     = inr s'
     /\ memory Weights s' = memory Weights s
     /\ episodeReward Weights s' = episodeReward Weights s
     /\ epsilon Weights s' = epsilon Weights s
     /\ onlineModel Weights s' = onlineModel Weights s
     /\ targetModel Weights s' = targetModel Weights s
     /\ disk Weights s' = disk Weights s
     /\ console Weights s'
        = (if done nextState then console Weights s
           else console Weights s ++ [Warn timeDelta]))
  /\ (timeDelta = 25%Z -> done nextState = false ->
      evaluateStep Weights cfg episode s state stateTensor action nextState
      = inr (print Weights (Warn 25) s))
  /\ (timeDelta = 45%Z ->
      exists (nextStateTensor : list Z) (s' : Session),
        stateToTensor nextState = inr nextStateTensor
        /\ evaluateStep Weights cfg episode s state stateTensor action
                        nextState
           = inr s'
        /\ memory Weights s'
           = Replay.add
               (Replay.mkTransition stateTensor action
                  (rewardFor nextState action) nextStateTensor
                  (done nextState))
               (memory Weights s))
  /\ (forall (fit : Fit) (d : Dice) (answers rest : list State)
             (s' : Session),
         iteration Weights forward units fit cfg episode s state d answers
         = inr (Some (s', nextState, rest)) ->
         (timeDelta < 40 \/ timeDelta > 60)%Z ->
         memory Weights s' = memory Weights s
         /\ episodeReward Weights s' = episodeReward Weights s
         /\ epsilon Weights s' = epsilon Weights s
         /\ ((timeDelta < 40)%Z -> done nextState = true)).
Proof.
  cbv zeta. split; [|split; [|split]].
  - intros Hout. apply inWindow_false in Hout.
    rewrite (evaluateStep_discard cfg episode s state stateTensor action
               nextState Hout).
    eexists. split; [reflexivity|].
    destruct (done nextState); repeat split; reflexivity.
  - intros H25 Hdone.
    rewrite evaluateStep_discard by (apply inWindow_false; lia).
    rewrite Hdone, H25. reflexivity.
  - intros H45.
    destruct (evaluateStep_accept cfg episode s state stateTensor action
                nextState) as (v & Hv & Hacc).
    { apply inWindow_true. lia. }
    exists v. eexists. split; [exact Hv|]. split; [exact Hacc|].
    reflexivity.
  - intros fit d answers rest s' Hit Hout.
    unfold iteration in Hit.
    destruct (stateToTensor state) as [e | v]; [discriminate|].
    simpl in Hit. unfold pollAndEvaluate in Hit.
    destruct (poll state answers) as [[next rest']|] eqn:Hpoll;
      [|discriminate].
    destruct (evaluateStep _ _ _ _ _ _ _ _) as [e | s1] eqn:Hev;
      [discriminate|].
    simpl in Hit. injection Hit as <- <- <-.
    apply inWindow_false in Hout.
    rewrite (evaluateStep_discard cfg episode _ state v _ next Hout)
      in Hev.
    destruct (optimizationStep_keeps fit cfg s d)
      as (Heps & Hrew & Hmem & _).
    assert (Hterm : (time next - time state < 40)%Z -> done next = true).
    { intros Hlt. destruct (poll_stops _ _ _ _ Hpoll) as [Hd | Hge];
        [exact Hd | lia]. }
    injection Hev as <-.
    destruct (done next); simpl; repeat split; auto.
Qed.

(** C5: on an accepted step the reward stored with the transition is -1
    when the next state is terminal, 0 when the step is not terminal
    and the action was the jump (1), and 1/10 (a positive value)
    otherwise; the reward is added to [episodeReward] first, and the
    transition is stored in the session that already carries the sum. *)
Theorem accepted_step_reward (cfg : Config) (episode : nat)
    (s : Session) (state : State) (stateTensor : list Z) (action : nat)
    (nextState : State) :
  (40 <= time nextState - time state <= 60)%Z ->
  exists (nextStateTensor : list Z) (reward : R) (s' : Session),
    stateToTensor nextState = inr nextStateTensor
    /\ (done nextState = true -> reward = (-1)%R)
    /\ (done nextState = false -> action = 1%nat -> reward = 0%R)
    /\ (done nextState = false -> action <> 1%nat ->
        reward = (1 / 10)%R /\ (0 < reward)%R)
    /\ (let summed := accumulate Weights reward s in
        let transition :=
          Replay.mkTransition stateTensor action reward nextStateTensor
                              (done nextState) in
        episodeReward Weights summed = (episodeReward Weights s + reward)%R
        /\ memory Weights summed = memory Weights s
        /\ evaluateStep Weights cfg episode s state stateTensor action
                        nextState
           = inr s'
        /\ s' = setEpsilon Weights (decayedEpsilon cfg episode)
                  (store Weights transition summed)
        /\ memory Weights s'
           = Replay.add transition (memory Weights summed)
        /\ episodeReward Weights s'
           = (episodeReward Weights s + reward)%R).
Proof.
  intros Hin. apply inWindow_true in Hin.
  destruct (evaluateStep_accept cfg episode s state stateTensor action
              nextState Hin) as (v & Hv & Hacc).
  exists v, (rewardFor nextState action). eexists.
  split; [exact Hv|].
  split; [|split; [|split]].
  - intros Hd. unfold rewardFor. rewrite Hd. reflexivity.
  - intros Hd Ha. unfold rewardFor. rewrite Hd, Ha. reflexivity.
  - intros Hd Ha. unfold rewardFor. rewrite Hd.
    destruct (Nat.eqb_spec action 1) as [Heq | _]; [contradiction|].
    split; [reflexivity | lra].
  - cbv zeta. split; [reflexivity|]. split; [reflexivity|].
    split; [exact Hacc|]. repeat split; reflexivity.
Qed.

End Loop.

Lemma step_outside_window_discarded_witness :
  (time stateAt25 - time stateAt0 = 25)%Z
  /\ done stateAt25 = false
  /\ evaluateStep nat toyConfig 0 toySession stateAt0 [] 1 stateAt25
     = inr (print nat (Warn 25) toySession).
Proof.
  split; [reflexivity|]. split; [reflexivity|].
  apply (proj1 (proj2 (step_outside_window_discarded nat toyForward 2
                         toyConfig 0 toySession stateAt0 [] 1 stateAt25)));
    reflexivity.
Defined.

Lemma accepted_step_reward_witness :
  (40 <= time stateAt45 - time stateAt0 <= 60)%Z
  /\ exists (nextStateTensor : list Z) (reward : R) (s' : Session nat),
       stateToTensor stateAt45 = inr nextStateTensor
       /\ (done stateAt45 = false -> 1%nat = 1%nat -> reward = 0%R)
       /\ evaluateStep nat toyConfig 0 toySession stateAt0 [] 1 stateAt45
          = inr s'.
Proof.
  split; [simpl; lia|].
  destruct (accepted_step_reward nat toyConfig 0 toySession stateAt0 [] 1
              stateAt45)
    as (v & reward & s' & Hv & _ & Hjump & _ & Hrest).
  - simpl; lia.
  - exists v, reward, s'. split; [exact Hv|]. split; [exact Hjump|].
    exact (proj1 (proj2 (proj2 Hrest))).
Defined.

End TrainingFacts.

(** ** Exponential decay of epsilon *)

Module DecayFacts.

Import Training.
Open Scope R_scope.

Lemma decay_exponent (episode : nat) (d : R) :
  -1 * INR episode / d = - (INR episode / d).
Proof. unfold Rdiv. ring. Qed.

Lemma decay_exponent_decreasing (e1 e2 : nat) (d : R) :
  0 < d -> (e1 < e2)%nat ->
  -1 * INR e2 / d < -1 * INR e1 / d.
Proof.
  intros Hd Hlt. rewrite !decay_exponent.
  apply Ropp_lt_contravar. unfold Rdiv.
  apply Rmult_lt_compat_r.
  - apply Rinv_0_lt_compat. exact Hd.
  - apply lt_INR. exact Hlt.
Qed.

Lemma decayedEpsilon_decreasing (cfg : Config) (e1 e2 : nat) :
  epsilonEnd cfg < epsilonStart cfg -> 0 < epsilonDecay cfg ->
  (e1 < e2)%nat ->
  decayedEpsilon cfg e2 < decayedEpsilon cfg e1.
Proof.
  intros Hse Hd Hlt. unfold decayedEpsilon.
  apply Rplus_lt_compat_l. apply Rmult_lt_compat_l; [lra|].
  apply exp_increasing. apply decay_exponent_decreasing; assumption.
Qed.

Lemma decayedEpsilon_above_end (cfg : Config) (episode : nat) :
  epsilonEnd cfg < epsilonStart cfg ->
  epsilonEnd cfg < decayedEpsilon cfg episode.
Proof.
  intros Hse. unfold decayedEpsilon.
  pose proof (exp_pos (-1 * INR episode / epsilonDecay cfg)) as Hexp.
  assert (0 < (epsilonStart cfg - epsilonEnd cfg)
              * exp (-1 * INR episode / epsilonDecay cfg)).
  { apply Rmult_lt_0_compat; lra. }
  lra.
Qed.

(** exp(-x) < 1/x for positive x. *)
Lemma exp_opp_below_inverse (x : R) : 0 < x -> exp (- x) < / x.
Proof.
  intros Hx. rewrite exp_Ropp.
  apply Rinv_0_lt_contravar; [exact Hx|].
  assert (Hne : x <> 0) by lra.
  pose proof (exp_ineq1 x Hne). lra.
Qed.

Lemma decayedEpsilon_converges (cfg : Config) :
  epsilonEnd cfg < epsilonStart cfg -> 0 < epsilonDecay cfg ->
  Un_cv (decayedEpsilon cfg) (epsilonEnd cfg).
Proof.
  intros Hse Hd eps Heps.
  set (c := epsilonStart cfg - epsilonEnd cfg).
  set (d := epsilonDecay cfg) in *.
  assert (Hc : 0 < c) by (unfold c; lra).
  destruct (INR_unbounded (c * d / eps)) as [N HN].
  assert (Hbound : 0 < c * d / eps).
  { unfold Rdiv. apply Rmult_lt_0_compat.
    - apply Rmult_lt_0_compat; assumption.
    - apply Rinv_0_lt_compat. exact Heps. }
  exists N. intros n Hn.
  assert (HnN : INR N <= INR n) by (apply le_INR; exact Hn).
  assert (Hnpos : 0 < INR n) by lra.
  assert (Hx : 0 < INR n / d).
  { unfold Rdiv. apply Rmult_lt_0_compat; [exact Hnpos|].
    apply Rinv_0_lt_compat. exact Hd. }
  pose proof (exp_opp_below_inverse (INR n / d) Hx) as Hexp.
  pose proof (exp_pos (- (INR n / d))) as Hpos.
  unfold Rdist, decayedEpsilon. fold c. fold d.
  rewrite decay_exponent.
  replace (epsilonEnd cfg + c * exp (- (INR n / d)) - epsilonEnd cfg)
    with (c * exp (- (INR n / d))) by ring.
  rewrite Rabs_pos_eq
    by (apply Rlt_le; apply Rmult_lt_0_compat; assumption).
  apply Rlt_trans with (c * / (INR n / d)).
  - apply Rmult_lt_compat_l; assumption.
  - assert (Hdiv : c * / (INR n / d) = c * d / INR n).
    { field. split; lra. }
    rewrite Hdiv.
    assert (Hlt : c * d / eps < INR n) by lra.
    assert (Hmul : c * d < INR n * eps).
    { apply (Rmult_lt_compat_r eps) in Hlt; [|exact Heps].
      replace (c * d / eps * eps) with (c * d) in Hlt
        by (field; lra).
      exact Hlt. }
    apply (Rmult_lt_reg_r (INR n)); [exact Hnpos|].
    replace (c * d / INR n * INR n) with (c * d) by (field; lra).
    lra.
Qed.

End DecayFacts.

(** ** The session: epsilon, synchronisation, contained failures *)

Module SessionFacts.

Import Encoder EncoderFacts Training TrainingFacts DecayFacts Toy.

Section Loop.

Variable Weights : Type.
Variable forward : Weights -> list Z -> list R.
Variable units : nat.

Abbreviation Session := (Session Weights).
Abbreviation Fit :=
  (Weights -> list (list Z) -> list (list R) -> nat -> Exn + (Weights * R)).

(** C6: after every accepted step epsilon is
    epsilonEnd + (epsilonStart - epsilonEnd) * exp(-episode / epsilonDecay)
    for the episode under way; when epsilonStart > epsilonEnd and
    epsilonDecay > 0 this value is strictly decreasing in the episode
    index, stays above epsilonEnd and converges to it. *)
Theorem epsilon_follows_decay (cfg : Config) :
  let value := fun episode : nat =>
    (epsilonEnd cfg
     + (epsilonStart cfg - epsilonEnd cfg)
       * exp (- INR episode / epsilonDecay cfg))%R in
  (forall (episode : nat) (s : Session) (state : State)
          (stateTensor : list Z) (action : nat) (nextState : State),
      (40 <= time nextState - time state <= 60)%Z ->
      exists s' : Session,
        evaluateStep Weights cfg episode s state stateTensor action
                     nextState
        = inr s'
        /\ epsilon Weights s' = value episode)
  /\ ((epsilonStart cfg > epsilonEnd cfg)%R ->
      (epsilonDecay cfg > 0)%R ->
      (forall e1 e2 : nat, (e1 < e2)%nat -> (value e2 < value e1)%R)
      /\ (forall e : nat, (epsilonEnd cfg < value e)%R)
      /\ Un_cv value (epsilonEnd cfg)).
Proof.
  cbv zeta.
  assert (Hval : forall episode : nat,
             (epsilonEnd cfg
              + (epsilonStart cfg - epsilonEnd cfg)
                * exp (- INR episode / epsilonDecay cfg))%R
             = decayedEpsilon cfg episode).
  { intros episode. unfold decayedEpsilon. do 3 f_equal.
    unfold Rdiv. ring. }
  split.
  - intros episode s state stateTensor action nextState Hin.
    apply inWindow_true in Hin.
    destruct (evaluateStep_accept Weights cfg episode s state stateTensor
                action nextState Hin) as (v & _ & Hacc).
    eexists. split; [exact Hacc|]. rewrite Hval. reflexivity.
  - intros Hse Hd. split; [|split].
    + intros e1 e2 Hlt. rewrite !Hval.
      apply decayedEpsilon_decreasing; assumption.
    + intros e. rewrite Hval.
      apply decayedEpsilon_above_end. assumption.
    + intros eps Heps.
      destruct (decayedEpsilon_converges cfg Hse Hd eps Heps) as [N HN].
      exists N. intros n Hn. rewrite Hval. apply HN. exact Hn.
Qed.

(** *** Target synchronisation *)

Lemma syncDue_divide (cfg : Config) (episode : nat) :
  syncDue cfg episode = true
  <-> Nat.divide (targetUpdateFrequency cfg) (episode + 1).
Proof.
  unfold syncDue. apply JsFacts.remIsZero_divide. lia.
Qed.

(** C7: the synchroniser runs at the end of an episode exactly when the
    number of completed episodes (episode + 1) is a multiple of
    targetUpdateFrequency; when it has run, the target model's weights
    are the online model's weights of that moment, the online model is
    untouched, and the storage holds these weights under the two
    distinct paths of "main" and "target"; when it has not run, the
    target model and the storage are as before. *)
Theorem target_sync_schedule (cfg : Config) (episode : nat) (s : Session) :
  (syncDue cfg episode = true
   <-> Nat.divide (targetUpdateFrequency cfg) (episode + 1))
  /\ (forall (online target : Weights) (d : Sync.Storage Weights),
         Sync.updateTargetModel Weights online target d
         = (online, online,
            Sync.save Weights Sync.targetPath online
              (Sync.save Weights Sync.mainPath online d)))
  /\ (syncDue cfg episode = true ->
      let s' := episodeEnd Weights cfg episode s in
      targetModel Weights s' = onlineModel Weights s
      /\ onlineModel Weights s' = onlineModel Weights s
      /\ Sync.load Weights Sync.mainPath (disk Weights s')
         = Some (onlineModel Weights s)
      /\ Sync.load Weights Sync.targetPath (disk Weights s')
         = Some (targetModel Weights s')
      /\ Sync.mainPath <> Sync.targetPath)
  /\ (syncDue cfg episode = false ->
      let s' := episodeEnd Weights cfg episode s in
      targetModel Weights s' = targetModel Weights s
      /\ onlineModel Weights s' = onlineModel Weights s
      /\ disk Weights s' = disk Weights s).
Proof.
  split; [apply syncDue_divide|].
  split; [reflexivity|].
  split.
  - intros Hdue. cbv zeta. unfold episodeEnd. rewrite Hdue.
    repeat split; try reflexivity. discriminate.
  - intros Hdue. cbv zeta. unfold episodeEnd. rewrite Hdue.
    repeat split; reflexivity.
Qed.

(** *** The optimisation step inside an iteration *)

Lemma optimizationStep_caught (fit : Fit) (cfg : Config) (s : Session)
    (d : Dice) (e : Exn) :
  (batchSize cfg <= length (Replay.buffer (memory Weights s)))%nat ->
  tryBlock Weights forward units fit cfg s d = inl e ->
  optimizationStep Weights forward units fit cfg s d
  = print Weights (LogExn e) s.
Proof.
  intros Hguard Htry. unfold optimizationStep.
  apply Nat.leb_le in Hguard. rewrite Hguard, Htry. reflexivity.
Qed.

Lemma pollAndEvaluate_sameProgress (cfg : Config) (episode : nat)
    (s : Session) (state : State) (stateTensor : list Z) (action : nat)
    (answers : list State) (e : Exn) (model : Weights) :
  sameProgress Weights e (console Weights s)
    (pollAndEvaluate Weights cfg episode (print Weights (LogExn e) s)
                     state stateTensor action answers)
    (pollAndEvaluate Weights cfg episode (setOnlineModel Weights model s)
                     state stateTensor action answers).
Proof.
  unfold pollAndEvaluate.
  destruct (poll state answers) as [[nextState rest]|];
    [|exact I].
  destruct (inWindow state nextState) eqn:Hw.
  - destruct (evaluateStep_accept Weights cfg episode
                (print Weights (LogExn e) s) state stateTensor action
                nextState Hw) as (v & Hv & H1).
    destruct (evaluateStep_accept Weights cfg episode
                (setOnlineModel Weights model s) state stateTensor action
                nextState Hw) as (v' & Hv' & H2).
    rewrite Hv in Hv'. injection Hv' as <-.
    rewrite H1, H2. simpl.
    repeat split; try reflexivity.
    exists []. rewrite app_nil_r. split; reflexivity.
  - rewrite !(evaluateStep_discard Weights cfg episode _ state stateTensor
                action nextState Hw).
    destruct (done nextState); simpl.
    + repeat split; try reflexivity.
      exists []. rewrite app_nil_r. split; reflexivity.
    + repeat split; try reflexivity.
      exists [Warn (time nextState - time state)].
      rewrite <- app_assoc. split; reflexivity.
Qed.

(** C9: when the optimisation step of an iteration (sampling and
    [optimizeModel]) raises [e], the exception is caught and printed and
    nothing else of the session changes; the iteration is not aborted
    and goes on to fetch and evaluate the next state exactly as it does
    after a successful optimisation that left any weights [model] in the
    online model: same next state, same epsilon, episode reward and
    replay memory. *)
Theorem optimization_failure_is_contained (fit : Fit) (cfg : Config)
    (episode : nat) (s : Session) (state : State) (d : Dice)
    (answers : list State) (e : Exn) :
  (batchSize cfg <= length (Replay.buffer (memory Weights s)))%nat ->
  tryBlock Weights forward units fit cfg s d = inl e ->
  optimizationStep Weights forward units fit cfg s d
  = print Weights (LogExn e) s
  /\ exists stateTensor : list Z,
       stateToTensor state = inr stateTensor
       /\ (let action :=
             selectAction Weights forward units (onlineModel Weights s)
                          stateTensor (epsilon Weights s) d in
           iteration Weights forward units fit cfg episode s state d
                     answers
           = pollAndEvaluate Weights cfg episode
               (print Weights (LogExn e) s) state stateTensor action
               answers
           /\ (exists outcome : option (Session * State * list State),
                  iteration Weights forward units fit cfg episode s state
                            d answers
                  = inr outcome)
           /\ forall model : Weights,
                sameProgress Weights e (console Weights s)
                  (iteration Weights forward units fit cfg episode s
                             state d answers)
                  (pollAndEvaluate Weights cfg episode
                     (setOnlineModel Weights model s) state stateTensor
                     action answers)).
Proof.
  intros Hguard Htry.
  pose proof (optimizationStep_caught fit cfg s d e Hguard Htry) as Hopt.
  split; [exact Hopt|].
  destruct (stateToTensor_returns state) as (v & Hv).
  exists v. split; [exact Hv|]. cbv zeta.
  assert (Hit : iteration Weights forward units fit cfg episode s state d
                          answers
                = pollAndEvaluate Weights cfg episode
                    (print Weights (LogExn e) s) state v
                    (selectAction Weights forward units
                       (onlineModel Weights s) v (epsilon Weights s) d)
                    answers).
  { unfold iteration. rewrite Hv. simpl. rewrite Hopt. reflexivity. }
  split; [exact Hit|].
  assert (Hsame : forall model : Weights,
             sameProgress Weights e (console Weights s)
               (iteration Weights forward units fit cfg episode s state d
                          answers)
               (pollAndEvaluate Weights cfg episode
                  (setOnlineModel Weights model s) state v
                  (selectAction Weights forward units
                     (onlineModel Weights s) v (epsilon Weights s) d)
                  answers)).
  { intros model. rewrite Hit. apply pollAndEvaluate_sameProgress. }
  split; [|exact Hsame].
  specialize (Hsame (onlineModel Weights s)).
  destruct (iteration Weights forward units fit cfg episode s state d
                      answers) as [e' | outcome].
  - destruct Hsame.
  - exists outcome. reflexivity.
Qed.

(** *** Epsilon along one episode *)

Lemma iteration_epsilon (fit : Fit) (cfg : Config) (episode : nat)
    (s s' : Session) (state nextState : State) (d : Dice)
    (answers rest : list State) :
  iteration Weights forward units fit cfg episode s state d answers
  = inr (Some (s', nextState, rest)) ->
  epsilon Weights s'
  = if inWindow state nextState then decayedEpsilon cfg episode
    else epsilon Weights s.
Proof.
  unfold iteration.
  destruct (stateToTensor state) as [e | v]; [discriminate|]. simpl.
  unfold pollAndEvaluate.
  destruct (poll state answers) as [[next rest']|]; [|discriminate].
  destruct (evaluateStep _ _ _ _ _ _ _ _) as [e | s1] eqn:Hev;
    [discriminate|].
  simpl. intros H. injection H as <- <- <-.
  rewrite (evaluateStep_epsilon Weights cfg episode _ s1 state v _ next Hev).
  destruct (optimizationStep_keeps Weights forward units fit cfg s d)
    as (Hkeep & _).
  rewrite Hkeep. reflexivity.
Qed.

Lemma trail_epsilon (fit : Fit) (cfg : Config) (episode : nat) :
  forall (dice : list Dice) (s : Session) (state : State)
         (answers : list State) (j : nat)
         (step : State * State * Session),
    nth_error (trail Weights forward units fit cfg episode s state dice
                     answers) j
    = Some step ->
    epsilon Weights (snd step)
    = if existsb (stepInWindow Weights)
           (firstn (S j)
              (trail Weights forward units fit cfg episode s state dice
                     answers))
      then decayedEpsilon cfg episode
      else epsilon Weights s.
Proof.
  induction dice as [|d dice IH]; intros s state answers j step.
  - simpl. destruct (done state); destruct j; discriminate.
  - simpl. destruct (done state); [destruct j; discriminate|].
    destruct (iteration Weights forward units fit cfg episode s state d
                        answers)
      as [e | [[[s1 next] rest]|]] eqn:Hit;
      try (destruct j; discriminate).
    pose proof (iteration_epsilon fit cfg episode s s1 state next d
                  answers rest Hit) as Heps.
    destruct j as [|j].
    + simpl. intros H. injection H as <-. simpl.
      unfold stepInWindow at 1. simpl. rewrite orb_false_r. exact Heps.
    + intros H. simpl in H.
      rewrite (IH s1 next rest j step H).
      change (firstn (S (S j)) ((state, next, s1) :: ?l))
        with ((state, next, s1) :: firstn (S j) l).
      cbn [existsb]. unfold stepInWindow at 2. cbn [fst snd].
      rewrite Heps.
      destruct (inWindow state next); simpl.
      * destruct (existsb _ _); reflexivity.
      * reflexivity.
Qed.

Lemma last_cons {A : Type} (a d : A) (l : list A) :
  last (a :: l) d = last l a.
Proof.
  revert a d. induction l as [|b l IH]; intros a d; [reflexivity|].
  change (last (a :: b :: l) d) with (last (b :: l) d).
  rewrite (IH b d), (IH b a). reflexivity.
Qed.

(** The session a finished [while] loop returns is the one its last
    iteration left. *)
Lemma whileLoop_trail (fit : Fit) (cfg : Config) (episode : nat) :
  forall (dice : list Dice) (s : Session) (state : State)
         (answers : list State) (s' : Session) (dice' : list Dice)
         (answers' : list State),
    whileLoop Weights forward units fit cfg episode s state dice answers
    = Finished (s', dice', answers') ->
    s' = last (map snd (trail Weights forward units fit cfg episode s
                              state dice answers)) s.
Proof.
  induction dice as [|d dice IH];
    intros s state answers s' dice' answers'; simpl.
  - destruct (done state); [|discriminate].
    intros H. injection H as <- _ _. reflexivity.
  - destruct (done state).
    + intros H. injection H as <- _ _. reflexivity.
    + destruct (iteration Weights forward units fit cfg episode s state d
                          answers)
        as [e | [[[s1 next] rest]|]]; try discriminate.
      intros H. cbn [map snd]. rewrite last_cons.
      exact (IH s1 next rest s' dice' answers' H).
Qed.

(** C10: within one episode every accepted step assigns epsilon the
    same value, the decayed value of the episode index; so along the
    iterations of the episode epsilon is the value the episode started
    with until the first accepted step, and the decayed value from that
    step on: it changes at most once. *)
Theorem epsilon_changes_once_per_episode (fit : Fit) (cfg : Config)
    (episode : nat) (s : Session) (state : State) (dice : list Dice)
    (answers : list State) :
  let steps :=
    trail Weights forward units fit cfg episode s state dice answers in
  (forall (j : nat) (from next : State) (after : Session),
      nth_error steps j = Some (from, next, after) ->
      (40 <= time next - time from <= 60)%Z ->
      epsilon Weights after = decayedEpsilon cfg episode)
  /\ (forall (j : nat) (from next : State) (after : Session),
         nth_error steps j = Some (from, next, after) ->
         epsilon Weights after
         = if existsb (stepInWindow Weights) (firstn (S j) steps)
           then decayedEpsilon cfg episode
           else epsilon Weights s).
Proof.
  cbv zeta.
  assert (Hall : forall (j : nat) (from next : State) (after : Session),
             nth_error (trail Weights forward units fit cfg episode s
                              state dice answers) j
             = Some (from, next, after) ->
             epsilon Weights after
             = if existsb (stepInWindow Weights)
                    (firstn (S j)
                       (trail Weights forward units fit cfg episode s
                              state dice answers))
               then decayedEpsilon cfg episode
               else epsilon Weights s).
  { intros j from next after Hj.
    exact (trail_epsilon fit cfg episode dice s state answers j
             (from, next, after) Hj). }
  split; [|exact Hall].
  intros j from next after Hj Hin.
  rewrite (Hall j from next after Hj).
  assert (Hex : existsb (stepInWindow Weights)
                  (firstn (S j)
                     (trail Weights forward units fit cfg episode s state
                            dice answers))
                = true).
  { apply existsb_exists. exists (from, next, after). split.
    - apply (nth_error_In _ j).
      rewrite nth_error_firstn.
      destruct (Nat.ltb_spec j (S j)) as [_ | Hge]; [exact Hj | lia].
    - unfold stepInWindow. simpl. apply inWindow_true. exact Hin. }
  rewrite Hex. reflexivity.
Qed.

End Loop.

Lemma epsilon_follows_decay_witness :
  (epsilonStart toyConfig > epsilonEnd toyConfig)%R
  /\ (epsilonDecay toyConfig > 0)%R
  /\ (1 / 100 + (1 - 1 / 100) * exp (- INR 1 / 200)
      < 1 / 100 + (1 - 1 / 100) * exp (- INR 0 / 200))%R.
Proof.
  assert (Hse : (epsilonStart toyConfig > epsilonEnd toyConfig)%R)
    by (simpl; lra).
  assert (Hd : (epsilonDecay toyConfig > 0)%R) by (simpl; lra).
  split; [exact Hse|]. split; [exact Hd|].
  apply (proj1 (proj2 (epsilon_follows_decay nat toyConfig) Hse Hd) 0%nat
           1%nat).
  lia.
Defined.

Lemma target_sync_schedule_witness :
  syncDue toyConfig 9 = true
  /\ targetModel nat (episodeEnd nat toyConfig 9 toySession)
     = onlineModel nat toySession.
Proof.
  split; [reflexivity|].
  apply (proj1 (proj2 (proj2 (target_sync_schedule nat toyConfig 9
                                toySession)))).
  reflexivity.
Defined.

Lemma optimization_failure_is_contained_witness :
  (batchSize toyConfig
   <= length (Replay.buffer (memory nat toySession)))%nat
  /\ tryBlock nat toyForward 2 failingFit toyConfig toySession toyDice
     = inl (FitError 7)
  /\ optimizationStep nat toyForward 2 failingFit toyConfig toySession
                      toyDice
     = print nat (LogExn (FitError 7)) toySession.
Proof.
  split; [simpl; lia|]. split; [reflexivity|].
  apply (optimization_failure_is_contained nat toyForward 2 failingFit
           toyConfig 0 toySession stateAt0 toyDice [stateAt45]
           (FitError 7)).
  - simpl; lia.
  - reflexivity.
Defined.

Lemma epsilon_changes_once_per_episode_witness :
  exists after : Session nat,
    nth_error
      (trail nat toyForward 2 toyFit toyConfig 3 toySession stateAt0
             [toyDice] [stateAt25; stateAt45]) 0
    = Some (stateAt0, stateAt45, after)
    /\ (40 <= time stateAt45 - time stateAt0 <= 60)%Z
    /\ epsilon nat after = decayedEpsilon toyConfig 3.
Proof.
  eexists. split; [reflexivity|]. split; [simpl; lia|].
  eapply (proj1 (epsilon_changes_once_per_episode nat toyForward 2 toyFit
                   toyConfig 3 toySession stateAt0 [toyDice]
                   [stateAt25; stateAt45]) 0%nat stateAt0 stateAt45).
  - reflexivity.
  - simpl; lia.
Defined.

(** The scripted game: one episode of two accepted steps, batch size 1,
    synchronisation after every episode.  The second iteration fits the
    online model once; at the end the target model holds the online
    weights and both transitions are in the replay memory. *)
Example scripted_session_syncs :
  exists s : Session nat,
    trainDinoModel nat toyForward 2 toyFit scriptedConfig 0%nat 3%nat
      (Replay.mkMemory 10%nat []) [] [toyDice; toyDice]
      [stateAt0; stateAt45; stateAt90]
    = Finished s
    /\ onlineModel nat s = 1%nat
    /\ targetModel nat s = onlineModel nat s
    /\ Sync.load nat Sync.targetPath (disk nat s) = Some 1%nat
    /\ length (Replay.buffer (memory nat s)) = 2%nat.
Proof.
  eexists. split; [reflexivity|]. repeat split; reflexivity.
Qed.

End SessionFacts.

(* ------------------------------------------------------------------ *)
(** * Further properties of the code *)

(** ** The layout of the feature vector *)

Module LayoutFacts.

Import Js JsFacts Encoder EncoderFacts.
Open Scope Z_scope.

Lemma obstacleToVector_fields (o : Obstacle) (vector : list Z)
    (offset : nat) :
  (offset + 43 <= length vector)%nat ->
  nth (offset + 40) (obstacleToVector o vector offset) 0 = yPos o
  /\ nth (offset + 41) (obstacleToVector o vector offset) 0 = width o
  /\ nth (offset + 42) (obstacleToVector o vector offset) 0 = size o.
Proof.
  intros Hlen. pose proof (distance_range o) as Hd.
  unfold obstacleToVector. repeat split.
  - do 2 (rewrite nth_array_set_other;
          [ | lia | repeat (rewrite array_set_length); lia ]).
    apply nth_array_set_same.
  - rewrite nth_array_set_other;
      [ | lia | repeat (rewrite array_set_length); lia ].
    apply nth_array_set_same.
  - apply nth_array_set_same.
Qed.

(** The two writes after the obstacle blocks. *)
Lemma tail_entries (blocks : list Z) (j : bool) (y : Z) :
  length blocks = 88%nat ->
  exists v : list Z,
    tensor2d (array_set 87 y (if j then array_set 86 1 blocks else blocks))
    = inr v
    /\ (forall k : nat, (k < 86)%nat -> nth k v 0 = nth k blocks 0)
    /\ nth 86 v 0 = (if j then 1 else nth 86 blocks 0)
    /\ nth 87 v 0 = y.
Proof.
  intros Hb.
  set (flagged := if j then array_set 86 1 blocks else blocks).
  assert (Hf : length flagged = 88%nat).
  { unfold flagged. destruct j; auto. rewrite array_set_length; lia. }
  assert (Hlen : length (array_set 87 y flagged) = 88%nat).
  { rewrite array_set_length; lia. }
  exists (array_set 87 y flagged). unfold tensor2d.
  split; [rewrite Hlen; reflexivity|].
  split; [|split].
  - intros k Hk. rewrite nth_array_set_other by lia.
    unfold flagged. destruct j; auto.
    rewrite nth_array_set_other by lia. reflexivity.
  - rewrite nth_array_set_other by lia.
    unfold flagged. destruct j; [apply nth_array_set_same | reflexivity].
  - apply nth_array_set_same.
Qed.

Lemma zeros_length : length (repeat 0 88) = 88%nat.
Proof. apply repeat_length. Qed.

Lemma first_block_length (o0 : Obstacle) :
  length (obstacleToVector o0 (repeat 0 88) 0) = 88%nat.
Proof. rewrite obstacleToVector_length; rewrite zeros_length; lia. Qed.

Lemma second_block_length (o0 o1 : Obstacle) :
  length (obstacleToVector o1 (obstacleToVector o0 (repeat 0 88) 0) 43)
  = 88%nat.
Proof.
  rewrite obstacleToVector_length; rewrite first_block_length; lia.
Qed.

(** The vector of a state, entry by entry, in terms of its obstacle
    blocks. *)
Lemma stateToTensor_entries (s : State) :
  exists v : list Z,
    stateToTensor s = inr v
    /\ nth 86 v 0 = (if jumping s then 1 else 0)
    /\ nth 87 v 0 = ypos s
    /\ forall k : nat, (k < 86)%nat ->
         nth k v 0
         = nth k (match obstacles s with
                  | [] => repeat 0 88
                  | o0 :: [] => obstacleToVector o0 (repeat 0 88) 0
                  | o0 :: o1 :: _ =>
                      obstacleToVector o1
                        (obstacleToVector o0 (repeat 0 88) 0) 43
                  end) 0.
Proof.
  destruct s as [obs j y t d]. unfold stateToTensor.
  cbn [obstacles jumping ypos]. cbv zeta.
  destruct obs as [|o0 [|o1 rest]].
  - destruct (tail_entries _ j y zeros_length) as (v & Hv & Hk & H86 & H87).
    exists v. split; [exact Hv|]. split; [|split; [exact H87 | exact Hk]].
    rewrite H86. destruct j; [reflexivity | apply nth_repeat].
  - destruct (tail_entries _ j y (first_block_length o0))
      as (v & Hv & Hk & H86 & H87).
    exists v. split; [exact Hv|]. split; [|split; [exact H87 | exact Hk]].
    rewrite H86. destruct j; [reflexivity|].
    rewrite (obstacleToVector_outside o0 (repeat 0 88) 0 86)
      by (rewrite ?zeros_length; lia).
    apply nth_repeat.
  - destruct (tail_entries _ j y (second_block_length o0 o1))
      as (v & Hv & Hk & H86 & H87).
    exists v. split; [exact Hv|]. split; [|split; [exact H87 | exact Hk]].
    rewrite H86. destruct j; [reflexivity|].
    rewrite (obstacleToVector_outside o1 _ 43 86)
      by (rewrite ?first_block_length; lia).
    rewrite (obstacleToVector_outside o0 (repeat 0 88) 0 86)
      by (rewrite ?zeros_length; lia).
    apply nth_repeat.
Qed.

(** X1: whatever the position of an obstacle, its 40-wide segment holds a
    single 1, at the index [distance], which lies in 0..39, and 0
    elsewhere: the first obstacle fills entries 0..39, the second entries
    43..82. *)
Theorem segments_are_one_hot (s : State) (v : list Z) :
  stateToTensor s = inr v ->
  (forall (o0 : Obstacle) (rest : list Obstacle),
      obstacles s = o0 :: rest ->
      0 <= distance o0 <= 39
      /\ forall k : nat, (k < 40)%nat ->
           nth k v 0 = if Z.eqb (Z.of_nat k) (distance o0) then 1 else 0)
  /\ (forall (o0 o1 : Obstacle) (rest : list Obstacle),
         obstacles s = o0 :: o1 :: rest ->
         0 <= distance o1 <= 39
         /\ forall k : nat, (k < 40)%nat ->
              nth (43 + k) v 0
              = if Z.eqb (Z.of_nat k) (distance o1) then 1 else 0).
Proof.
  intros Hv.
  destruct (stateToTensor_entries s) as (v' & Hv' & _ & _ & Hk).
  rewrite Hv in Hv'. injection Hv' as <-.
  split.
  - intros o0 rest Hobs. split; [apply distance_range|].
    intros k Hlt. rewrite Hk by lia. rewrite Hobs.
    destruct rest as [|o1 rest'].
    + change k with (0 + k)%nat at 1.
      rewrite (obstacleToVector_one_hot o0 (repeat 0 88) 0 k)
        by (rewrite ?zeros_length; lia).
      rewrite nth_repeat. reflexivity.
    + rewrite (obstacleToVector_outside o1 _ 43 k)
        by (rewrite ?first_block_length; lia).
      change k with (0 + k)%nat at 1.
      rewrite (obstacleToVector_one_hot o0 (repeat 0 88) 0 k)
        by (rewrite ?zeros_length; lia).
      rewrite nth_repeat. reflexivity.
  - intros o0 o1 rest Hobs. split; [apply distance_range|].
    intros k Hlt. rewrite Hk by lia. rewrite Hobs.
    rewrite (obstacleToVector_one_hot o1 _ 43 k)
      by (rewrite ?first_block_length; lia).
    rewrite (obstacleToVector_outside o0 (repeat 0 88) 0 (43 + k))
      by (rewrite ?zeros_length; lia).
    rewrite nth_repeat. reflexivity.
Qed.

Lemma segments_are_one_hot_witness :
  let s := mkState [mkObstacle 34359738387 105 51 3] true 93 0 false in
  exists v : list Z,
    stateToTensor s = inr v
    /\ nth 0 v 0 = 1 /\ nth 39 v 0 = 0.
Proof.
  cbv zeta. eexists. split; [reflexivity|].
  destruct (proj1 (segments_are_one_hot
                     (mkState [mkObstacle 34359738387 105 51 3] true 93 0
                              false) _ eq_refl)
                  (mkObstacle 34359738387 105 51 3) [] eq_refl)
    as [_ Hk].
  split.
  - exact (Hk 0%nat ltac:(lia)).
  - exact (Hk 39%nat ltac:(lia)).
Defined.

(** X2: the numeric entries: entries 40, 41, 42 hold the first obstacle's
    yPos, width and size, entries 83, 84, 85 those of the second, entry 86
    is 1 when the dinosaur is jumping and 0 otherwise, entry 87 is its
    y-position; all are written as they are. *)
Theorem numeric_fields_unquantized (s : State) (v : list Z) :
  stateToTensor s = inr v ->
  nth 86 v 0 = (if jumping s then 1 else 0)
  /\ nth 87 v 0 = ypos s
  /\ (forall (o0 : Obstacle) (rest : list Obstacle),
         obstacles s = o0 :: rest ->
         nth 40 v 0 = yPos o0 /\ nth 41 v 0 = width o0
         /\ nth 42 v 0 = size o0)
  /\ (forall (o0 o1 : Obstacle) (rest : list Obstacle),
         obstacles s = o0 :: o1 :: rest ->
         nth 83 v 0 = yPos o1 /\ nth 84 v 0 = width o1
         /\ nth 85 v 0 = size o1).
Proof.
  intros Hv.
  destruct (stateToTensor_entries s) as (v' & Hv' & H86 & H87 & Hk).
  rewrite Hv in Hv'. injection Hv' as <-.
  split; [exact H86|]. split; [exact H87|]. split.
  - intros o0 rest Hobs. rewrite !Hk by lia. rewrite Hobs.
    destruct (obstacleToVector_fields o0 (repeat 0 88) 0)
      as (Hy & Hw & Hs); [rewrite zeros_length; lia|].
    destruct rest as [|o1 rest'].
    + repeat split; assumption.
    + rewrite !(obstacleToVector_outside o1 _ 43)
        by (rewrite ?first_block_length; lia).
      repeat split; assumption.
  - intros o0 o1 rest Hobs. rewrite !Hk by lia. rewrite Hobs.
    destruct (obstacleToVector_fields o1
                (obstacleToVector o0 (repeat 0 88) 0) 43)
      as (Hy & Hw & Hs); [rewrite first_block_length; lia|].
    repeat split; assumption.
Qed.

Lemma numeric_fields_unquantized_witness :
  let s := mkState [mkObstacle 100 105 51 3; mkObstacle 400 90 34 2]
                   true 93 0 false in
  exists v : list Z,
    stateToTensor s = inr v
    /\ nth 86 v 0 = 1 /\ nth 87 v 0 = 93.
Proof.
  cbv zeta. eexists. split; [reflexivity|].
  destruct (numeric_fields_unquantized
              (mkState [mkObstacle 100 105 51 3; mkObstacle 400 90 34 2]
                       true 93 0 false) _ eq_refl)
    as (H86 & H87 & _).
  split; [exact H86 | exact H87].
Defined.

(** X3: the vector depends on nothing but the first two obstacles, the
    jumping flag and the dinosaur's y-position: further obstacles, the
    time stamp and the terminal flag never reach it. *)
Theorem encoding_reads_two_obstacles (s s' : State) :
  firstn 2 (obstacles s) = firstn 2 (obstacles s') ->
  jumping s = jumping s' ->
  ypos s = ypos s' ->
  stateToTensor s = stateToTensor s'.
Proof.
  destruct s as [obs j y t d], s' as [obs' j' y' t' d'].
  cbn [obstacles jumping ypos]. intros Hobs <- <-.
  unfold stateToTensor. cbn [obstacles jumping ypos]. cbv zeta.
  destruct obs as [|o0 [|o1 rest]], obs' as [|p0 [|p1 rest']];
    simpl in Hobs; try discriminate; try reflexivity.
  - injection Hobs as <-. reflexivity.
  - injection Hobs as <- <-. reflexivity.
Qed.

Lemma encoding_reads_two_obstacles_witness :
  stateToTensor
    (mkState [mkObstacle 100 105 51 3; mkObstacle 400 90 34 2;
              mkObstacle 600 75 46 1] false 93 1000 false)
  = stateToTensor
      (mkState [mkObstacle 100 105 51 3; mkObstacle 400 90 34 2]
               false 93 2000 true).
Proof.
  apply encoding_reads_two_obstacles; reflexivity.
Defined.

(** X4: inside the range where [~~] does not wrap, an obstacle that is
    farther away never gets a smaller bucket. *)
Theorem distance_monotone (o o' : Obstacle) :
  - 2 ^ 35 <= xPos o - 19 ->
  xPos o <= xPos o' ->
  xPos o' - 19 < 2 ^ 35 ->
  distance o <= distance o'.
Proof.
  intros Hlo Hle Hhi. unfold distance.
  rewrite !truncDiv_exact by lia.
  rewrite !clamp_quot_div.
  assert (Hdiv : (xPos o - 19) / 16 <= (xPos o' - 19) / 16).
  { apply Z.div_le_mono; lia. }
  lia.
Qed.

Lemma distance_monotone_witness :
  - 2 ^ 35 <= 19 - 19
  /\ 19 <= 625
  /\ 625 - 19 < 2 ^ 35
  /\ distance (mkObstacle 19 0 0 0) <= distance (mkObstacle 625 0 0 0).
Proof.
  split; [lia|]. split; [lia|]. split; [lia|].
  apply (distance_monotone (mkObstacle 19 0 0 0) (mkObstacle 625 0 0 0));
    simpl; lia.
Defined.

End LayoutFacts.

(** ** The regression targets beyond a single entry *)

Module TargetFacts.

Import Js JsFacts Replay Learner LearnerFacts Toy.
Open Scope R_scope.

Lemma typed_set_beyond {A : Type} (k : nat) (v : A) (arr : list A) :
  (length arr <= k)%nat -> typed_set k v arr = arr.
Proof.
  revert k. induction arr as [|x rest IH]; intros [|k] Hk; simpl in *;
    try reflexivity; try lia.
  f_equal. apply IH. lia.
Qed.

Lemma targetsLoop_length (qs ts : list R) (acts : list nat) (n : nat)
    (gamma : R) (experiences : list Transition) :
  forall i : nat,
    length (targetsLoop qs ts acts n gamma i experiences)
    = length experiences.
Proof.
  induction experiences as [|e rest IH]; intros i; simpl;
    [reflexivity | rewrite IH; reflexivity].
Qed.

Section Model.

Variable Weights : Type.
Variable forward : Weights -> list Z -> list R.
Variable units : nat.

Hypothesis forward_width :
  forall (w : Weights) (x : list Z), length (forward w x) = units.

Variable fit :
  Weights -> list (list Z) -> list (list R) -> nat -> Exn + (Weights * R).

(** X5: on an empty batch [optimizeModel] raises before [fit] is
    reached; on every batch that has entries [fit] gets the states of
    the batch in order and one target row for each entry, every row as
    wide as the output layer, also for an entry whose action is no
    valid index. *)
Theorem targets_match_batch (onlineModel targetModel : Weights)
    (experiences : list Transition) (gamma : R) (batchSize : nat) :
  optimizeModel Weights forward units fit onlineModel targetModel []
                gamma batchSize
  = inl ShapeError
  /\ (experiences <> [] ->
      exists targets : list (list R),
        optimizeModel Weights forward units fit onlineModel targetModel
                      experiences gamma batchSize
        = fit onlineModel (map state experiences) targets batchSize
        /\ length targets = length experiences
        /\ Forall (fun row : list R => length row = units) targets).
Proof.
  split; [reflexivity|]. intros Hne.
  exists (snd (regressionTargets Weights forward units onlineModel
                 targetModel experiences gamma)).
  split; [apply optimizeModel_fit; exact Hne|].
  assert (Hlen : length (snd (regressionTargets Weights forward units
                                onlineModel targetModel experiences
                                gamma))
                 = length experiences).
  { unfold regressionTargets. cbn [snd]. apply targetsLoop_length. }
  split; [exact Hlen|].
  apply Forall_forall. intros row Hin.
  destruct (In_nth_error _ _ Hin) as [i Hi].
  assert (Hlt : (i < length experiences)%nat).
  { rewrite <- Hlen. apply nth_error_Some. rewrite Hi. discriminate. }
  destruct (nth_error experiences i) as [e|] eqn:He.
  - rewrite (regressionTargets_row Weights forward units forward_width
               onlineModel targetModel experiences gamma i e He) in Hi.
    injection Hi as <-. rewrite typed_set_length. apply forward_width.
  - apply nth_error_None in He. lia.
Qed.

(** X6: an entry whose action is not an index of the output layer gets
    the online model's own prediction as its target row: the store
    into the typed array is ignored. *)
Theorem invalid_action_leaves_prediction (onlineModel targetModel : Weights)
    (experiences : list Transition) (gamma : R) (i : nat)
    (e : Transition) :
  nth_error experiences i = Some e ->
  (units <= action e)%nat ->
  nth_error (snd (regressionTargets Weights forward units onlineModel
                    targetModel experiences gamma)) i
  = Some (forward onlineModel (state e)).
Proof.
  intros Hi Ha.
  rewrite (regressionTargets_row Weights forward units forward_width
             onlineModel targetModel experiences gamma i e Hi).
  rewrite typed_set_beyond; [reflexivity|].
  rewrite forward_width. exact Ha.
Qed.

(** X7: when the online and the target model carry the same weights, as
    they do right after a synchronisation, the target of a running
    entry is reward + gamma * max_a model(nextState)[a]. *)
Theorem synced_models_give_max_target (model : Weights)
    (experiences : list Transition) (gamma : R) (i : nat)
    (e : Transition) :
  nth_error experiences i = Some e ->
  done e = false ->
  (action e < units)%nat ->
  exists (row : list R) (best : R),
    nth_error (snd (regressionTargets Weights forward units model model
                      experiences gamma)) i
    = Some row
    /\ nth (action e) row 0 = reward e + gamma * best
    /\ In best (forward model (nextState e))
    /\ forall q : R, In q (forward model (nextState e)) -> q <= best.
Proof.
  intros Hi Hdone Ha.
  pose proof (regressionTargets_row Weights forward units forward_width
                model model experiences gamma i e Hi) as Hrow.
  rewrite Hdone in Hrow.
  assert (Hne : forward model (nextState e) <> []).
  { intros Hnil. pose proof (forward_width model (nextState e)) as Hw.
    rewrite Hnil in Hw. simpl in Hw. lia. }
  destruct (argMaxRow_greatest _ Hne) as [Hlt Hmax].
  eexists. exists (nth (argMaxRow (forward model (nextState e)))
                       (forward model (nextState e)) 0).
  split; [exact Hrow|]. split; [|split].
  - apply nth_typed_set_same. rewrite forward_width. exact Ha.
  - apply nth_In. exact Hlt.
  - intros q Hq. destruct (In_nth _ _ 0 Hq) as (j & Hj & <-).
    apply Hmax. exact Hj.
Qed.

(** X8: for a non-negative gamma the Double-DQN target of a running
    entry never exceeds reward + gamma * max_a targetModel(nextState)[a],
    the target of plain DQN. *)
Theorem double_dqn_below_max_target (onlineModel targetModel : Weights)
    (experiences : list Transition) (gamma : R) (i : nat)
    (e : Transition) :
  nth_error experiences i = Some e ->
  done e = false ->
  (action e < units)%nat ->
  0 <= gamma ->
  exists row : list R,
    nth_error (snd (regressionTargets Weights forward units onlineModel
                      targetModel experiences gamma)) i
    = Some row
    /\ nth (action e) row 0
       <= reward e
          + gamma
            * nth (argMaxRow (forward targetModel (nextState e)))
                  (forward targetModel (nextState e)) 0.
Proof.
  intros Hi Hdone Ha Hg.
  pose proof (regressionTargets_row Weights forward units forward_width
                onlineModel targetModel experiences gamma i e Hi) as Hrow.
  rewrite Hdone in Hrow.
  eexists. split; [exact Hrow|].
  rewrite nth_typed_set_same by (rewrite forward_width; exact Ha).
  assert (Hne : forall w, forward w (nextState e) <> []).
  { intros w Hnil. pose proof (forward_width w (nextState e)) as Hw.
    rewrite Hnil in Hw. simpl in Hw. lia. }
  destruct (argMaxRow_greatest _ (Hne onlineModel)) as [Hlt _].
  destruct (argMaxRow_greatest _ (Hne targetModel)) as [_ Hmax].
  rewrite forward_width in Hlt. rewrite forward_width in Hmax.
  specialize (Hmax _ Hlt).
  apply Rplus_le_compat_l. apply Rmult_le_compat_l; assumption.
Qed.

(** X9: the target row of an entry does not depend on its position in
    the batch: a transition drawn twice gets the same row twice. *)
Theorem repeated_entry_same_row (onlineModel targetModel : Weights)
    (experiences : list Transition) (gamma : R) (i j : nat)
    (e : Transition) :
  nth_error experiences i = Some e ->
  nth_error experiences j = Some e ->
  nth_error (snd (regressionTargets Weights forward units onlineModel
                    targetModel experiences gamma)) i
  = nth_error (snd (regressionTargets Weights forward units onlineModel
                      targetModel experiences gamma)) j.
Proof.
  intros Hi Hj.
  rewrite (regressionTargets_row Weights forward units forward_width
             onlineModel targetModel experiences gamma i e Hi).
  rewrite (regressionTargets_row Weights forward units forward_width
             onlineModel targetModel experiences gamma j e Hj).
  reflexivity.
Qed.

End Model.

Lemma targets_match_batch_witness :
  [toyCrash; toyRunning; toyCrash] <> []
  /\ exists targets : list (list R),
       optimizeModel nat toyForward 2 toyFit 0%nat 3%nat
                     [toyCrash; toyRunning; toyCrash] (9 / 10) 3
       = toyFit 0%nat (map state [toyCrash; toyRunning; toyCrash]) targets
                3%nat
       /\ length targets = 3%nat.
Proof.
  assert (Hne : [toyCrash; toyRunning; toyCrash] <> []) by discriminate.
  split; [exact Hne|].
  destruct (proj2 (targets_match_batch nat toyForward 2 toyForward_width
                     toyFit 0%nat 3%nat [toyCrash; toyRunning; toyCrash]
                     (9 / 10) 3%nat) Hne)
    as (targets & Hfit & Hlen & _).
  exists targets. split; assumption.
Defined.

Lemma invalid_action_leaves_prediction_witness :
  let e := mkTransition [] 5 (1 / 10) [] false in
  nth_error [e] 0 = Some e
  /\ (2 <= action e)%nat
  /\ nth_error (snd (regressionTargets nat toyForward 2 0%nat 3%nat [e]
                       (9 / 10))) 0
     = Some (toyForward 0 (state e)).
Proof.
  cbv zeta. split; [reflexivity|]. split; [simpl; lia|].
  apply (invalid_action_leaves_prediction nat toyForward 2 toyForward_width
           0%nat 3%nat [mkTransition [] 5 (1 / 10) [] false] (9 / 10)
           0%nat (mkTransition [] 5 (1 / 10) [] false)).
  - reflexivity.
  - simpl; lia.
Defined.

Lemma synced_models_give_max_target_witness :
  nth_error [toyCrash; toyRunning] 1 = Some toyRunning
  /\ done toyRunning = false
  /\ (action toyRunning < 2)%nat
  /\ exists (row : list R) (best : R),
       nth_error (snd (regressionTargets nat toyForward 2 3%nat 3%nat
                         [toyCrash; toyRunning] (9 / 10))) 1
       = Some row
       /\ nth (action toyRunning) row 0 = reward toyRunning + 9 / 10 * best.
Proof.
  split; [reflexivity|]. split; [reflexivity|]. split; [simpl; lia|].
  destruct (synced_models_give_max_target nat toyForward 2 toyForward_width
              3%nat [toyCrash; toyRunning] (9 / 10) 1%nat toyRunning
              eq_refl eq_refl)
    as (row & best & Hrow & Hval & _).
  - simpl; lia.
  - exists row, best. split; assumption.
Defined.

Lemma double_dqn_below_max_target_witness :
  nth_error [toyCrash; toyRunning] 1 = Some toyRunning
  /\ done toyRunning = false
  /\ (action toyRunning < 2)%nat
  /\ 0 <= 9 / 10
  /\ exists row : list R,
       nth_error (snd (regressionTargets nat toyForward 2 0%nat 3%nat
                         [toyCrash; toyRunning] (9 / 10))) 1
       = Some row.
Proof.
  assert (Hg : 0 <= 9 / 10) by lra.
  split; [reflexivity|]. split; [reflexivity|]. split; [simpl; lia|].
  split; [exact Hg|].
  destruct (double_dqn_below_max_target nat toyForward 2 toyForward_width
              0%nat 3%nat [toyCrash; toyRunning] (9 / 10) 1%nat toyRunning
              eq_refl eq_refl)
    as (row & Hrow & _).
  - simpl; lia.
  - exact Hg.
  - exists row. exact Hrow.
Defined.

Lemma repeated_entry_same_row_witness :
  nth_error [toyRunning; toyCrash; toyRunning] 0 = Some toyRunning
  /\ nth_error [toyRunning; toyCrash; toyRunning] 2 = Some toyRunning
  /\ nth_error (snd (regressionTargets nat toyForward 2 0%nat 3%nat
                       [toyRunning; toyCrash; toyRunning] (9 / 10))) 0
     = nth_error (snd (regressionTargets nat toyForward 2 0%nat 3%nat
                         [toyRunning; toyCrash; toyRunning] (9 / 10))) 2.
Proof.
  split; [reflexivity|]. split; [reflexivity|].
  apply (repeated_entry_same_row nat toyForward 2 toyForward_width 0%nat
           3%nat [toyRunning; toyCrash; toyRunning] (9 / 10) 0%nat 2%nat
           toyRunning); reflexivity.
Defined.

End TargetFacts.

(** ** The policy and the range of epsilon *)

Module PolicyFacts.

Import Replay Learner LearnerFacts Training DecayFacts Toy.
Open Scope R_scope.

Lemma Int_part_unit (r : R) : 0 <= r < 1 -> Int_part r = 0%Z.
Proof.
  intros Hr. symmetry. apply Int_part_spec. simpl. lra.
Qed.

Lemma Int_part_second_unit (r : R) : 1 <= r < 2 -> Int_part r = 1%Z.
Proof.
  intros Hr. symmetry. apply Int_part_spec. simpl. lra.
Qed.

Section Model.

Variable Weights : Type.
Variable forward : Weights -> list Z -> list R.
Variable units : nat.

Hypothesis forward_width :
  forall (w : Weights) (x : list Z), length (forward w x) = units.

Lemma selectAction_greedy (model : Weights) (stateTensor : list Z)
    (epsilon : R) (d : Dice) :
  epsilon <= u1 d ->
  selectAction Weights forward units model stateTensor epsilon d
  = argMaxRow (forward model stateTensor).
Proof.
  intros He. unfold selectAction.
  destruct (Rlt_dec (u1 d) epsilon) as [Hlt | _]; [lra|].
  reflexivity.
Qed.

Lemma selectAction_explore (model : Weights) (stateTensor : list Z)
    (epsilon : R) (d : Dice) :
  u1 d < epsilon ->
  selectAction Weights forward units model stateTensor epsilon d
  = Z.to_nat (Int_part (u2 d * 2)).
Proof.
  intros He. unfold selectAction.
  destruct (Rlt_dec (u1 d) epsilon) as [_ | Hge]; [reflexivity | lra].
Qed.

(** X10: when the first random draw is not below epsilon, the action
    selected is an index at which the model's prediction for the state
    is largest. *)
Theorem greedy_action_is_best (model : Weights) (stateTensor : list Z)
    (epsilon : R) (d : Dice) :
  (0 < units)%nat ->
  epsilon <= u1 d ->
  let action :=
    selectAction Weights forward units model stateTensor epsilon d in
  (action < units)%nat
  /\ forall a : nat, (a < units)%nat ->
       nth a (forward model stateTensor) 0
       <= nth action (forward model stateTensor) 0.
Proof.
  intros Hu He. cbv zeta.
  rewrite (selectAction_greedy model stateTensor epsilon d He).
  assert (Hne : forward model stateTensor <> []).
  { intros Hnil. pose proof (forward_width model stateTensor) as Hw.
    rewrite Hnil in Hw. simpl in Hw. lia. }
  destruct (argMaxRow_greatest _ Hne) as [Hlt Hmax].
  rewrite forward_width in Hlt, Hmax. split; assumption.
Qed.

(** X11: when the first random draw is below epsilon, the action is
    decided by the second draw alone: 0 for a draw below one half, 1 for
    a draw of one half or more; the model is not consulted. *)
Theorem exploring_action_is_coin_flip (model : Weights)
    (stateTensor : list Z) (epsilon : R) (d : Dice) :
  u1 d < epsilon ->
  0 <= u2 d < 1 ->
  let action :=
    selectAction Weights forward units model stateTensor epsilon d in
  (u2 d < 1 / 2 -> action = 0%nat)
  /\ (1 / 2 <= u2 d -> action = 1%nat).
Proof.
  intros He Hu. cbv zeta.
  rewrite (selectAction_explore model stateTensor epsilon d He).
  split; intros Hhalf.
  - rewrite Int_part_unit by lra. reflexivity.
  - rewrite Int_part_second_unit by lra. reflexivity.
Qed.

(** X12: for a network with at least two outputs and a second draw in
    [0, 1), the selected action is always an index of the output
    layer; for the two-output network of the source it is 0 or 1. *)
Theorem selected_action_is_valid (model : Weights) (stateTensor : list Z)
    (epsilon : R) (d : Dice) :
  (2 <= units)%nat ->
  0 <= u2 d < 1 ->
  (selectAction Weights forward units model stateTensor epsilon d
   < units)%nat.
Proof.
  intros Hu Hd.
  destruct (Rlt_dec (u1 d) epsilon) as [Hlt | Hge].
  - rewrite (selectAction_explore model stateTensor epsilon d Hlt).
    destruct (Rlt_dec (u2 d) (1 / 2)) as [Hhalf | Hhalf].
    + rewrite Int_part_unit by lra. simpl. lia.
    + rewrite Int_part_second_unit by lra. simpl. lia.
  - rewrite (selectAction_greedy model stateTensor epsilon d)
      by lra.
    assert (Hne : forward model stateTensor <> []).
    { intros Hnil. pose proof (forward_width model stateTensor) as Hw.
      rewrite Hnil in Hw. simpl in Hw. lia. }
    destruct (argMaxRow_greatest _ Hne) as [Hlt _].
    rewrite forward_width in Hlt. exact Hlt.
Qed.

End Model.

Lemma greedy_action_is_best_witness :
  (0 < 2)%nat
  /\ 0 <= u1 toyDice
  /\ (selectAction nat toyForward 2 3%nat [] 0 toyDice < 2)%nat.
Proof.
  assert (He : 0 <= u1 toyDice) by (simpl; lra).
  split; [lia|]. split; [exact He|].
  exact (proj1 (greedy_action_is_best nat toyForward 2 toyForward_width
                  3%nat [] 0 toyDice ltac:(lia) He)).
Defined.

Lemma exploring_action_is_coin_flip_witness :
  u1 toyDice < 1
  /\ 0 <= u2 toyDice < 1
  /\ 1 / 2 <= u2 toyDice
  /\ selectAction nat toyForward 2 3%nat [] 1 toyDice = 1%nat.
Proof.
  assert (He : u1 toyDice < 1) by (simpl; lra).
  assert (Hu : 0 <= u2 toyDice < 1) by (simpl; lra).
  assert (Hh : 1 / 2 <= u2 toyDice) by (simpl; lra).
  split; [exact He|]. split; [exact Hu|]. split; [exact Hh|].
  exact (proj2 (exploring_action_is_coin_flip nat toyForward 2 3%nat []
                  1 toyDice He Hu) Hh).
Defined.

Lemma selected_action_is_valid_witness :
  (2 <= 2)%nat
  /\ 0 <= u2 toyDice < 1
  /\ (selectAction nat toyForward 2 3%nat [] (1 / 100) toyDice < 2)%nat.
Proof.
  assert (Hu : 0 <= u2 toyDice < 1) by (simpl; lra).
  split; [lia|]. split; [exact Hu|].
  apply (selected_action_is_valid nat toyForward 2 toyForward_width 3%nat
           [] (1 / 100) toyDice); [lia | exact Hu].
Defined.

(** *** The decayed value when epsilonStart is the smaller bound *)

Lemma decay_factor_range (episode : nat) (d : R) :
  0 < d -> 0 < exp (-1 * INR episode / d) <= 1.
Proof.
  intros Hd. split; [apply exp_pos|].
  rewrite decay_exponent.
  assert (Hx : 0 <= INR episode / d).
  { unfold Rdiv. apply Rmult_le_pos; [apply pos_INR|].
    apply Rlt_le. apply Rinv_0_lt_compat. exact Hd. }
  destruct (Req_dec (INR episode / d) 0) as [H0 | Hne].
  - rewrite H0, Ropp_0, exp_0. lra.
  - rewrite <- exp_0. apply Rlt_le. apply exp_increasing. lra.
Qed.

Lemma decayedEpsilon_between (cfg : Config) (episode : nat) :
  0 < epsilonDecay cfg ->
  Rmin (epsilonStart cfg) (epsilonEnd cfg) <= decayedEpsilon cfg episode
  <= Rmax (epsilonStart cfg) (epsilonEnd cfg).
Proof.
  intros Hd. unfold decayedEpsilon.
  destruct (decay_factor_range episode (epsilonDecay cfg) Hd) as [Hpos Hle].
  set (t := exp (-1 * INR episode / epsilonDecay cfg)) in *.
  unfold Rmin, Rmax.
  destruct (Rle_dec (epsilonStart cfg) (epsilonEnd cfg)) as [Hse | Hse];
    split; nra.
Qed.

(** X13: with epsilonStart below epsilonEnd, as in the constants of
    [setupModelTraining] (0.0 and 0.01), and a positive epsilonDecay, the
    value assigned to epsilon grows strictly with the episode index,
    starts at epsilonStart in episode 0 and stays below epsilonEnd. *)
Theorem epsilon_grows_from_smaller_start (cfg : Config) :
  epsilonStart cfg < epsilonEnd cfg ->
  0 < epsilonDecay cfg ->
  decayedEpsilon cfg 0 = epsilonStart cfg
  /\ (forall e1 e2 : nat, (e1 < e2)%nat ->
        decayedEpsilon cfg e1 < decayedEpsilon cfg e2)
  /\ (forall e : nat, decayedEpsilon cfg e < epsilonEnd cfg).
Proof.
  intros Hse Hd. split; [|split].
  - unfold decayedEpsilon. simpl.
    replace (-1 * 0 / epsilonDecay cfg) with 0 by (unfold Rdiv; ring).
    rewrite exp_0. ring.
  - intros e1 e2 Hlt. unfold decayedEpsilon.
    pose proof (exp_increasing _ _
                  (decay_exponent_decreasing e1 e2 (epsilonDecay cfg) Hd
                     Hlt)) as Hexp.
    nra.
  - intros e. unfold decayedEpsilon.
    pose proof (exp_pos (-1 * INR e / epsilonDecay cfg)) as Hpos.
    nra.
Qed.

Lemma epsilon_grows_from_smaller_start_witness :
  let cfg := mkConfig 100 64 (9 / 10) 0 (1 / 100) 200 10 in
  epsilonStart cfg < epsilonEnd cfg
  /\ 0 < epsilonDecay cfg
  /\ decayedEpsilon cfg 0 = epsilonStart cfg.
Proof.
  cbv zeta.
  assert (Hse : epsilonStart (mkConfig 100 64 (9 / 10) 0 (1 / 100) 200 10)
                < epsilonEnd (mkConfig 100 64 (9 / 10) 0 (1 / 100) 200 10))
    by (simpl; lra).
  assert (Hd : 0 < epsilonDecay
                     (mkConfig 100 64 (9 / 10) 0 (1 / 100) 200 10))
    by (simpl; lra).
  split; [exact Hse|]. split; [exact Hd|].
  exact (proj1 (epsilon_grows_from_smaller_start _ Hse Hd)).
Defined.

End PolicyFacts.

(** ** Invariants of the loops *)

Module LoopFacts.

Import Encoder EncoderFacts Training TrainingFacts DecayFacts PolicyFacts
       Notions Toy.

(** X14: the polling loop returns the first answer that is terminal or at
    least 40 ms after the current state, and passes over nothing else:
    every answer before it is not terminal and too early; it gives no
    answer only when all the answers at hand are such. *)
Theorem poll_takes_first_eligible (state : State) (answers : list State) :
  match poll state answers with
  | Some (nextState, rest) =>
      exists skipped : list State,
        answers = skipped ++ nextState :: rest
        /\ Forall (tooEarly state) skipped
        /\ (done nextState = true
            \/ (40 <= time nextState - time state)%Z)
  | None => Forall (tooEarly state) answers
  end.
Proof.
  induction answers as [|a answers IH]; simpl; [constructor|].
  destruct (done a) eqn:Hd; simpl.
  - exists []. repeat split; [constructor | left; exact Hd].
  - destruct (Z.ltb_spec (time a - time state) 40) as [Hlt | Hge].
    + destruct (poll state answers) as [[nextState rest]|].
      * destruct IH as (skipped & Heq & Hsk & Hel).
        exists (a :: skipped). rewrite Heq. repeat split; auto.
        constructor; [split; assumption | exact Hsk].
      * constructor; [split; assumption | exact IH].
    + exists []. repeat split; [constructor | right; exact Hge].
Qed.

Section Loop.

Variable Weights : Type.
Variable forward : Weights -> list Z -> list R.
Variable units : nat.

Abbreviation Session := (Session Weights).
Abbreviation Fit :=
  (Weights -> list (list Z) -> list (list R) -> nat -> Exn + (Weights * R)).

(** *** One iteration, taken apart *)

Lemma iteration_inversion (fit : Fit) (cfg : Config) (episode : nat)
    (s s' : Session) (state nextState : State) (d : Dice)
    (answers rest : list State) :
  iteration Weights forward units fit cfg episode s state d answers
  = inr (Some (s', nextState, rest)) ->
  exists stateTensor : list Z,
    stateToTensor state = inr stateTensor
    /\ poll state answers = Some (nextState, rest)
    /\ evaluateStep Weights cfg episode
         (optimizationStep Weights forward units fit cfg s d) state
         stateTensor
         (selectAction Weights forward units (onlineModel Weights s)
                       stateTensor (epsilon Weights s) d)
         nextState
       = inr s'.
Proof.
  unfold iteration.
  destruct (stateToTensor state) as [e | v]; [discriminate|].
  simpl. unfold pollAndEvaluate.
  destruct (poll state answers) as [[next rest']|]; [|discriminate].
  destruct (evaluateStep _ _ _ _ _ _ _ _) as [e | s1] eqn:Hev;
    [discriminate|].
  simpl. intros H. injection H as <- <- <-.
  exists v. repeat split. exact Hev.
Qed.

Lemma iteration_never_raises (fit : Fit) (cfg : Config) (episode : nat)
    (s : Session) (state : State) (d : Dice) (answers : list State)
    (e : Exn) :
  iteration Weights forward units fit cfg episode s state d answers
  <> inl e.
Proof.
  unfold iteration.
  destruct (stateToTensor_returns state) as (v & Hv). rewrite Hv.
  simpl. unfold pollAndEvaluate.
  destruct (poll state answers) as [[next rest]|]; [|discriminate].
  destruct (inWindow state next) eqn:Hw.
  - destruct (evaluateStep_accept Weights cfg episode
                (optimizationStep Weights forward units fit cfg s d)
                state v
                (selectAction Weights forward units
                   (onlineModel Weights s) v (epsilon Weights s) d)
                next Hw) as (v' & _ & Hacc).
    rewrite Hacc. discriminate.
  - rewrite (evaluateStep_discard Weights cfg episode _ state v _ next Hw).
    discriminate.
Qed.

(** The step evaluation changes neither model, nor the storage, nor
    the log file. *)
Lemma evaluateStep_keeps (cfg : Config) (episode : nat) (s s' : Session)
    (state : State) (stateTensor : list Z) (action : nat)
    (nextState : State) :
  evaluateStep Weights cfg episode s state stateTensor action nextState
  = inr s' ->
  onlineModel Weights s' = onlineModel Weights s
  /\ targetModel Weights s' = targetModel Weights s
  /\ disk Weights s' = disk Weights s
  /\ logs Weights s' = logs Weights s.
Proof.
  intros Hev. destruct (inWindow state nextState) eqn:Hw.
  - destruct (evaluateStep_accept Weights cfg episode s state stateTensor
                action nextState Hw) as (v & _ & Hacc).
    rewrite Hacc in Hev. injection Hev as <-. repeat split.
  - rewrite (evaluateStep_discard Weights cfg episode s state stateTensor
               action nextState Hw) in Hev.
    injection Hev as <-. destruct (done nextState); repeat split.
Qed.

(** *** Invariants carried through the loops *)

Lemma whileLoop_invariant (fit : Fit) (cfg : Config) (episode : nat)
    (P : Session -> Prop) :
  (forall (s s' : Session) (state nextState : State) (d : Dice)
          (answers rest : list State),
      P s ->
      iteration Weights forward units fit cfg episode s state d answers
      = inr (Some (s', nextState, rest)) ->
      P s') ->
  forall (dice : list Dice) (s : Session) (state : State)
         (answers : list State),
    P s ->
    P (reached afterLoop
         (whileLoop Weights forward units fit cfg episode s state dice
                    answers)).
Proof.
  intros Hstep. induction dice as [|d dice IH];
    intros s state answers Hs; simpl.
  - destruct (done state); exact Hs.
  - destruct (done state); [exact Hs|].
    destruct (iteration Weights forward units fit cfg episode s state d
                        answers)
      as [e | [[[s1 next] rest]|]] eqn:Hit; try exact Hs.
    apply IH. exact (Hstep s s1 state next d answers rest Hs Hit).
Qed.

Lemma episodesLoop_invariant (fit : Fit) (cfg : Config)
    (P : Session -> Prop) :
  (forall (episode : nat) (s s' : Session) (state nextState : State)
          (d : Dice) (answers rest : list State),
      P s ->
      iteration Weights forward units fit cfg episode s state d answers
      = inr (Some (s', nextState, rest)) ->
      P s') ->
  (forall (episode : nat) (s : Session),
      P s -> P (episodeEnd Weights cfg episode s)) ->
  forall (todo episode : nat) (s : Session) (dice : list Dice)
         (answers : list State),
    P s ->
    P (reached (fun s' : Session => s')
         (episodesLoop Weights forward units fit cfg todo episode s dice
                       answers)).
Proof.
  intros Hstep Hend. induction todo as [|todo IH];
    intros episode s dice answers Hs; simpl; [exact Hs|].
  destruct answers as [|state answers]; [exact Hs|].
  pose proof (whileLoop_invariant fit cfg episode P (Hstep episode) dice s
                state answers Hs) as Hloop.
  destruct (whileLoop Weights forward units fit cfg episode s state dice
                      answers)
    as [[[s1 dice1] answers1] | s1 | e s1]; simpl in Hloop;
    try exact Hloop.
  apply IH. apply Hend. exact Hloop.
Qed.

(** X15: during an episode the target model is frozen: however far the
    [while] loop gets, the target weights and the checkpoints in
    storage are those the episode started with. *)
Theorem target_frozen_during_episode (fit : Fit) (cfg : Config)
    (episode : nat) (s : Session) (state : State) (dice : list Dice)
    (answers : list State) :
  let s' :=
    reached afterLoop
      (whileLoop Weights forward units fit cfg episode s state dice
                 answers) in
  targetModel Weights s' = targetModel Weights s
  /\ disk Weights s' = disk Weights s.
Proof.
  cbv zeta.
  apply (whileLoop_invariant fit cfg episode
           (fun s' => targetModel Weights s' = targetModel Weights s
                      /\ disk Weights s' = disk Weights s)).
  - intros s0 s1 st next d ans rest (Ht & Hd) Hit.
    destruct (iteration_inversion fit cfg episode s0 s1 st next d ans rest
                Hit) as (v & _ & _ & Hev).
    destruct (evaluateStep_keeps cfg episode _ s1 st v _ next Hev)
      as (_ & Ht1 & Hd1 & _).
    destruct (optimizationStep_keeps Weights forward units fit cfg s0 d)
      as (_ & _ & _ & Ht0 & Hd0 & _).
    split; congruence.
  - split; reflexivity.
Qed.

(** *** Rewards and the log file *)

Lemma iteration_reward (fit : Fit) (cfg : Config) (episode : nat)
    (s s' : Session) (state nextState : State) (d : Dice)
    (answers rest : list State) :
  iteration Weights forward units fit cfg episode s state d answers
  = inr (Some (s', nextState, rest)) ->
  (episodeReward Weights s - 1 <= episodeReward Weights s')%R
  /\ (done nextState = false ->
      (episodeReward Weights s <= episodeReward Weights s')%R).
Proof.
  intros Hit.
  destruct (iteration_inversion fit cfg episode s s' state nextState d
              answers rest Hit) as (v & _ & _ & Hev).
  destruct (optimizationStep_keeps Weights forward units fit cfg s d)
    as (_ & Hrew & _).
  destruct (inWindow state nextState) eqn:Hw.
  - destruct (evaluateStep_accept Weights cfg episode
                (optimizationStep Weights forward units fit cfg s d)
                state v
                (selectAction Weights forward units
                   (onlineModel Weights s) v (epsilon Weights s) d)
                nextState Hw) as (v' & _ & Hacc).
    rewrite Hacc in Hev. injection Hev as <-. simpl. rewrite Hrew.
    unfold rewardFor.
    destruct (done nextState); [split; [lra | discriminate]|].
    destruct (Nat.eqb _ 1); split; intros; lra.
  - rewrite (evaluateStep_discard Weights cfg episode _ state v _
               nextState Hw) in Hev.
    injection Hev as <-.
    destruct (done nextState); simpl; rewrite Hrew; split; intros; lra.
Qed.

Lemma whileLoop_reward (fit : Fit) (cfg : Config) (episode : nat) :
  forall (dice : list Dice) (s : Session) (state : State)
         (answers : list State)
         (result : Session * list Dice * list State),
    whileLoop Weights forward units fit cfg episode s state dice answers
    = Finished result ->
    (episodeReward Weights s - 1
     <= episodeReward Weights (afterLoop result))%R
    /\ (done state = true ->
        episodeReward Weights (afterLoop result)
        = episodeReward Weights s).
Proof.
  induction dice as [|d dice IH]; intros s state answers result; simpl.
  - destruct (done state); [|discriminate].
    intros H. injection H as <-. unfold afterLoop. cbn [fst].
    split; [lra | reflexivity].
  - destruct (done state) eqn:Hd.
    + intros H. injection H as <-. unfold afterLoop. cbn [fst].
    split; [lra | reflexivity].
    + destruct (iteration Weights forward units fit cfg episode s state d
                          answers)
        as [e | [[[s1 next] rest]|]] eqn:Hit; try discriminate.
      intros Hloop.
      destruct (iteration_reward fit cfg episode s s1 state next d answers
                  rest Hit) as [Hlow Hrun].
      destruct (IH s1 next rest result Hloop) as [Hlow1 Hdone1].
      unfold afterLoop in *.
      split; [|discriminate].
      destruct (done next) eqn:Hn.
      * rewrite (Hdone1 eq_refl). exact Hlow.
      * specialize (Hrun eq_refl). lra.
Qed.

Lemma whileLoop_keeps_files (fit : Fit) (cfg : Config) (episode : nat)
    (s : Session) (state : State) (dice : list Dice)
    (answers : list State)
    (result : Session * list Dice * list State) :
  whileLoop Weights forward units fit cfg episode s state dice answers
  = Finished result ->
  disk Weights (afterLoop result) = disk Weights s
  /\ logs Weights (afterLoop result) = logs Weights s.
Proof.
  intros Hloop.
  pose proof (whileLoop_invariant fit cfg episode
                (fun s' => disk Weights s' = disk Weights s
                           /\ logs Weights s' = logs Weights s)) as Hinv.
  specialize (Hinv
    (fun s0 s1 st next d ans rest H Hit =>
       match iteration_inversion fit cfg episode s0 s1 st next d ans rest
               Hit with
       | ex_intro _ v (conj _ (conj _ Hev)) =>
           match evaluateStep_keeps cfg episode _ s1 st v _ next Hev,
                 optimizationStep_keeps Weights forward units fit cfg s0 d
           with
           | conj _ (conj _ (conj Hd1 Hl1)),
             conj _ (conj _ (conj _ (conj _ (conj Hd0 Hl0)))) =>
               conj (eq_trans Hd1 (eq_trans Hd0 (proj1 H)))
                    (eq_trans Hl1 (eq_trans Hl0 (proj2 H)))
           end
       end)
    dice s state answers (conj eq_refl eq_refl)).
  rewrite Hloop in Hinv. exact Hinv.
Qed.

Lemma episodesLoop_lines (fit : Fit) (cfg : Config) :
  forall (todo episode : nat) (s s' : Session) (dice : list Dice)
         (answers : list State),
    episodeReward Weights s = 0%R ->
    episodesLoop Weights forward units fit cfg todo episode s dice answers
    = Finished s' ->
    episodeReward Weights s' = 0%R
    /\ exists lines : list LogLine,
         logs Weights s' = logs Weights s ++ lines
         /\ length lines = todo
         /\ forall k : nat, (k < todo)%nat ->
              exists eps r : R,
                nth_error lines k
                = Some (EpisodeLine (episode + k + 1) eps r)
                /\ (-1 <= r)%R.
Proof.
  induction todo as [|todo IH]; intros episode s s' dice answers H0; simpl.
  - intros H. injection H as <-. split; [exact H0|].
    exists []. rewrite app_nil_r. repeat split. intros k Hk. lia.
  - destruct answers as [|state answers]; [discriminate|].
    destruct (whileLoop Weights forward units fit cfg episode s state dice
                        answers)
      as [[[s1 dice1] answers1] | s1 | e s1] eqn:Hloop;
      try discriminate.
    intros Hrest.
    destruct (whileLoop_reward fit cfg episode dice s state answers _
                Hloop) as [Hlow _].
    destruct (whileLoop_keeps_files fit cfg episode s state dice answers _
                Hloop) as [_ Hlogs].
    unfold afterLoop in Hlow, Hlogs. cbn [fst] in Hlow, Hlogs.
    destruct (IH (S episode) (episodeEnd Weights cfg episode s1) s' dice1
                answers1) as (Hzero & lines & Hl & Hlen & Hk);
      [ reflexivity | exact Hrest | ].
    split; [exact Hzero|].
    exists (EpisodeLine (episode + 1)
              (epsilon Weights s1) (episodeReward Weights s1) :: lines).
    split; [|split].
    + rewrite Hl. unfold episodeEnd.
      destruct (syncDue cfg episode); simpl; rewrite Hlogs;
        rewrite <- app_assoc; reflexivity.
    + simpl. rewrite Hlen. reflexivity.
    + intros [|k] Hlt.
      * exists (epsilon Weights s1), (episodeReward Weights s1).
        rewrite Nat.add_0_r. split; [reflexivity|]. lra.
      * destruct (Hk k ltac:(lia)) as (eps & r & Hnth & Hr).
        exists eps, r. split; [|exact Hr].
        simpl. rewrite Hnth. do 2 f_equal. lia.
Qed.

(** X16: when a session finishes, the trainer has issued the write of
    the separator and then exactly one write per episode, with the
    episode numbers 1, 2, ..., episodes in the order of issue.  The
    writes are not awaited, so the order of the lines in the file is
    not fixed: whatever content the file has once all the writes have
    completed, it has episodes + 1 lines, the separator among them and
    a line for every episode number. *)
Theorem log_lists_every_episode (fit : Fit) (cfg : Config)
    (online target : Weights) (memory0 : Replay.Memory)
    (disk0 : Sync.Storage Weights) (dice : list Dice)
    (answers : list State) (s : Session) :
  trainDinoModel Weights forward units fit cfg online target memory0 disk0
                 dice answers
  = Finished s ->
  (exists lines : list LogLine,
      logs Weights s = Separator :: lines
      /\ length lines = episodes cfg
      /\ forall k : nat, (k < episodes cfg)%nat ->
           exists eps r : R,
             nth_error lines k = Some (EpisodeLine (k + 1) eps r))
  /\ forall file : list LogLine,
       landed (logs Weights s) file ->
       length file = S (episodes cfg)
       /\ In Separator file
       /\ forall k : nat, (k < episodes cfg)%nat ->
            exists eps r : R, In (EpisodeLine (k + 1) eps r) file.
Proof.
  unfold trainDinoModel. intros Hrun.
  pose proof (fun H0 => episodesLoop_lines fit cfg _ _ _ _ _ _ H0 Hrun)
    as Hlines.
  destruct (Hlines eq_refl) as (_ & lines & Hl & Hlen & Hk).
  cbn [logs app] in Hl.
  split.
  - exists lines. split; [exact Hl|]. split; [exact Hlen|].
    intros k Hlt. destruct (Hk k Hlt) as (eps & r & Hnth & _).
    exists eps, r. exact Hnth.
  - intros file Hfile. unfold landed in Hfile. rewrite Hl in Hfile.
    split; [|split].
    + rewrite <- (Permutation_length Hfile). simpl. rewrite Hlen.
      reflexivity.
    + apply (Permutation_in _ Hfile). left. reflexivity.
    + intros k Hlt. destruct (Hk k Hlt) as (eps & r & Hnth & _).
      exists eps, r. apply (Permutation_in _ Hfile). right.
      apply (nth_error_In _ k). exact Hnth.
Qed.

(** X17: the total reward logged for an episode is never below -1: only
    the last step of an episode is terminal and every other accepted
    step adds 0 or 1/10; and when the session finishes the accumulator
    is back at 0. *)
Theorem logged_reward_at_least_minus_one (fit : Fit) (cfg : Config)
    (online target : Weights) (memory0 : Replay.Memory)
    (disk0 : Sync.Storage Weights) (dice : list Dice)
    (answers : list State) (s : Session) :
  trainDinoModel Weights forward units fit cfg online target memory0 disk0
                 dice answers
  = Finished s ->
  episodeReward Weights s = 0%R
  /\ forall (n : nat) (eps r : R),
       In (EpisodeLine n eps r) (logs Weights s) -> (-1 <= r)%R.
Proof.
  unfold trainDinoModel. intros Hrun.
  pose proof (fun H0 => episodesLoop_lines fit cfg _ _ _ _ _ _ H0 Hrun)
    as Hlines.
  destruct (Hlines eq_refl) as (Hzero & lines & Hl & Hlen & Hk).
  split; [exact Hzero|].
  intros n eps r Hin. rewrite Hl in Hin. simpl in Hin.
  destruct Hin as [Hsep | Hin]; [discriminate|].
  destruct (In_nth_error _ _ Hin) as [k Hnth].
  assert (Hlt : (k < episodes cfg)%nat).
  { rewrite <- Hlen. apply nth_error_Some. rewrite Hnth. discriminate. }
  destruct (Hk k Hlt) as (eps' & r' & Hnth' & Hr).
  rewrite Hnth in Hnth'. injection Hnth' as _ _ ->. exact Hr.
Qed.

(** *** Synchronisation over a whole session *)

Lemma episodeEnd_synced (cfg : Config) (episode : nat) (s : Session) :
  syncDue cfg episode = true ->
  let s' := episodeEnd Weights cfg episode s in
  targetModel Weights s' = onlineModel Weights s'
  /\ Sync.load Weights Sync.mainPath (disk Weights s')
     = Some (onlineModel Weights s')
  /\ Sync.load Weights Sync.targetPath (disk Weights s')
     = Some (onlineModel Weights s').
Proof.
  intros Hdue. cbv zeta. unfold episodeEnd. rewrite Hdue.
  repeat split.
Qed.

Lemma episodeEnd_disk_length (cfg : Config) (episode : nat) (s : Session) :
  length (disk Weights (episodeEnd Weights cfg episode s))
  = (length (disk Weights s)
     + (if syncDue cfg episode then 2 else 0))%nat.
Proof.
  unfold episodeEnd. destruct (syncDue cfg episode); simpl; lia.
Qed.

Lemma episodesLoop_final_sync (fit : Fit) (cfg : Config) :
  forall (todo episode : nat) (s s' : Session) (dice : list Dice)
         (answers : list State),
    syncDue cfg (episode + todo) = true ->
    episodesLoop Weights forward units fit cfg (S todo) episode s dice
                 answers
    = Finished s' ->
    targetModel Weights s' = onlineModel Weights s'
    /\ Sync.load Weights Sync.mainPath (disk Weights s')
       = Some (onlineModel Weights s')
    /\ Sync.load Weights Sync.targetPath (disk Weights s')
       = Some (onlineModel Weights s').
Proof.
  induction todo as [|todo IH]; intros episode s s' dice answers Hdue.
  - rewrite Nat.add_0_r in Hdue. simpl.
    destruct answers as [|state answers]; [discriminate|].
    destruct (whileLoop Weights forward units fit cfg episode s state dice
                        answers)
      as [[[s1 dice1] answers1] | s1 | e s1]; try discriminate.
    intros H. injection H as <-.
    apply episodeEnd_synced. exact Hdue.
  - intros Hrun.
    change (episodesLoop Weights forward units fit cfg (S (S todo))
                         episode s dice answers)
      with (match answers with
            | [] => Pending s
            | state :: answers0 =>
                match whileLoop Weights forward units fit cfg episode s
                                state dice answers0 with
                | Finished (s0, dice0, answers1) =>
                    episodesLoop Weights forward units fit cfg (S todo)
                      (S episode) (episodeEnd Weights cfg episode s0)
                      dice0 answers1
                | Pending s0 => Pending s0
                | Aborted e s0 => Aborted e s0
                end
            end) in Hrun.
    destruct answers as [|state answers]; [discriminate|].
    destruct (whileLoop Weights forward units fit cfg episode s state dice
                        answers)
      as [[[s1 dice1] answers1] | s1 | e s1]; try discriminate.
    refine (IH (S episode) _ s' dice1 answers1 _ Hrun).
    replace (S episode + todo)%nat with (episode + S todo)%nat by lia.
    exact Hdue.
Qed.

(** X18: when the number of episodes is a positive multiple of
    targetUpdateFrequency, a finished session ends on a
    synchronisation: the target model holds the online weights and both
    checkpoints on disk hold them too. *)
Theorem session_ends_synced (fit : Fit) (cfg : Config)
    (online target : Weights) (memory0 : Replay.Memory)
    (disk0 : Sync.Storage Weights) (dice : list Dice)
    (answers : list State) (s : Session) :
  (0 < episodes cfg)%nat ->
  Nat.divide (targetUpdateFrequency cfg) (episodes cfg) ->
  trainDinoModel Weights forward units fit cfg online target memory0 disk0
                 dice answers
  = Finished s ->
  targetModel Weights s = onlineModel Weights s
  /\ Sync.load Weights Sync.mainPath (disk Weights s)
     = Some (onlineModel Weights s)
  /\ Sync.load Weights Sync.targetPath (disk Weights s)
     = Some (onlineModel Weights s).
Proof.
  unfold trainDinoModel. intros Hpos Hdiv Hrun.
  destruct (episodes cfg) as [|n] eqn:Hn; [lia|].
  refine (episodesLoop_final_sync fit cfg n 0 _ s dice answers _ Hrun).
  apply SessionFacts.syncDue_divide.
  replace (0 + n + 1)%nat with (S n) by lia. exact Hdiv.
Qed.

Lemma episodesLoop_disk (fit : Fit) (cfg : Config) :
  forall (todo episode : nat) (s s' : Session) (dice : list Dice)
         (answers : list State),
    episodesLoop Weights forward units fit cfg todo episode s dice answers
    = Finished s' ->
    length (disk Weights s')
    = (length (disk Weights s)
       + 2 * length (filter (syncDue cfg) (seq episode todo)))%nat.
Proof.
  induction todo as [|todo IH]; intros episode s s' dice answers; simpl.
  - intros H. injection H as <-. lia.
  - destruct answers as [|state answers]; [discriminate|].
    destruct (whileLoop Weights forward units fit cfg episode s state dice
                        answers)
      as [[[s1 dice1] answers1] | s1 | e s1] eqn:Hloop;
      try discriminate.
    intros Hrest.
    destruct (whileLoop_keeps_files fit cfg episode s state dice answers _
                Hloop) as [Hdisk _].
    unfold afterLoop in Hdisk. cbn [fst] in Hdisk.
    rewrite (IH (S episode) _ s' dice1 answers1 Hrest).
    rewrite episodeEnd_disk_length, Hdisk.
    destruct (syncDue cfg episode); simpl; lia.
Qed.

Lemma div_succ (n f : nat) :
  (S n / f
   = n / f + (if Js.remIsZero (n + 1) f then 1 else 0))%nat.
Proof.
  destruct f as [|f]; [reflexivity|].
  unfold Js.remIsZero.
  pose proof (Nat.div_mod_eq n (S f)) as Hn.
  pose proof (Nat.mod_upper_bound n (S f) ltac:(lia)) as Hr.
  destruct (Nat.eq_dec (n mod S f + 1) (S f)) as [Hfull | Hpart].
  - assert (Hq : (S n / S f = n / S f + 1)%nat).
    { symmetry. apply (Nat.div_unique (S n) (S f) _ 0); lia. }
    assert (Hm : ((n + 1) mod S f = 0)%nat).
    { symmetry. apply (Nat.mod_unique (n + 1) (S f) (n / S f + 1)); lia. }
    rewrite Hq, Hm. reflexivity.
  - assert (Hq : (S n / S f = n / S f)%nat).
    { symmetry. apply (Nat.div_unique (S n) (S f) _ (n mod S f + 1)); lia. }
    assert (Hm : ((n + 1) mod S f = n mod S f + 1)%nat).
    { symmetry. apply (Nat.mod_unique (n + 1) (S f) (n / S f)); lia. }
    rewrite Hq, Hm.
    destruct (Nat.eqb_spec (n mod S f + 1) 0); lia.
Qed.

Lemma syncs_up_to (cfg : Config) (n : nat) :
  length (filter (syncDue cfg) (seq 0 n))
  = (n / targetUpdateFrequency cfg)%nat.
Proof.
  induction n as [|n IH].
  - destruct (targetUpdateFrequency cfg); reflexivity.
  - rewrite seq_S, filter_app, length_app, IH, div_succ.
    simpl. unfold syncDue.
    destruct (Js.remIsZero (n + 1) (targetUpdateFrequency cfg));
      reflexivity.
Qed.

(** X19: over a finished session the synchroniser runs exactly
    episodes div targetUpdateFrequency times (never, for a frequency of
    0): the storage gains two checkpoints per run and nothing else. *)
Theorem session_sync_count (fit : Fit) (cfg : Config)
    (online target : Weights) (memory0 : Replay.Memory)
    (disk0 : Sync.Storage Weights) (dice : list Dice)
    (answers : list State) (s : Session) :
  trainDinoModel Weights forward units fit cfg online target memory0 disk0
                 dice answers
  = Finished s ->
  length (disk Weights s)
  = (length disk0
     + 2 * (episodes cfg / targetUpdateFrequency cfg))%nat.
Proof.
  unfold trainDinoModel. intros Hrun.
  rewrite (episodesLoop_disk fit cfg _ _ _ s dice answers Hrun).
  rewrite syncs_up_to. reflexivity.
Qed.

(** *** Epsilon over a whole session *)

(** X20: with a positive epsilonDecay, epsilon never leaves the
    interval between epsilonStart and epsilonEnd, at whatever point the
    session stands. *)
Theorem epsilon_stays_between_bounds (fit : Fit) (cfg : Config)
    (online target : Weights) (memory0 : Replay.Memory)
    (disk0 : Sync.Storage Weights) (dice : list Dice)
    (answers : list State) :
  (0 < epsilonDecay cfg)%R ->
  let s :=
    reached (fun s' : Session => s')
      (trainDinoModel Weights forward units fit cfg online target memory0
                      disk0 dice answers) in
  (Rmin (epsilonStart cfg) (epsilonEnd cfg) <= epsilon Weights s
   <= Rmax (epsilonStart cfg) (epsilonEnd cfg))%R.
Proof.
  intros Hd. cbv zeta. unfold trainDinoModel.
  apply (episodesLoop_invariant fit cfg
           (fun s => (Rmin (epsilonStart cfg) (epsilonEnd cfg)
                      <= epsilon Weights s
                      <= Rmax (epsilonStart cfg) (epsilonEnd cfg))%R)).
  - intros episode s0 s1 st next d ans rest Hin Hit.
    rewrite (SessionFacts.iteration_epsilon Weights forward units fit cfg
               episode s0 s1 st next d ans rest Hit).
    destruct (inWindow st next); [|exact Hin].
    apply decayedEpsilon_between. exact Hd.
  - intros episode s0 Hin. unfold episodeEnd.
    destruct (syncDue cfg episode); exact Hin.
  - simpl. split; [apply Rmin_l | apply Rmax_l].
Qed.

(** *** The replay memory over a whole session *)

Lemma add_keeps_labels (t : Replay.Transition) (m : Replay.Memory) :
  wellLabelled t ->
  Forall wellLabelled (Replay.buffer m) ->
  Forall wellLabelled (Replay.buffer (Replay.add t m)).
Proof.
  intros Ht Hm. unfold Replay.add.
  destruct (Nat.leb _ _); simpl; apply Forall_app; split;
    try (constructor; [exact Ht | constructor]).
  - destruct (Replay.buffer m) as [|x rest]; [constructor|].
    simpl. inversion Hm. assumption.
  - exact Hm.
Qed.

(** X21: every transition the loop puts into the replay memory is
    labelled consistently: reward -1 exactly on a terminal step, 0 or
    1/10 otherwise, with two feature vectors of 88 entries.  A memory
    that starts out so (an empty one does) stays so throughout the
    session. *)
Theorem memory_stays_well_labelled (fit : Fit) (cfg : Config)
    (online target : Weights) (memory0 : Replay.Memory)
    (disk0 : Sync.Storage Weights) (dice : list Dice)
    (answers : list State) :
  Forall wellLabelled (Replay.buffer memory0) ->
  let s :=
    reached (fun s' : Session => s')
      (trainDinoModel Weights forward units fit cfg online target memory0
                      disk0 dice answers) in
  Forall wellLabelled (Replay.buffer (memory Weights s)).
Proof.
  intros H0. cbv zeta. unfold trainDinoModel.
  apply (episodesLoop_invariant fit cfg
           (fun s => Forall wellLabelled
                       (Replay.buffer (memory Weights s)))).
  - intros episode s0 s1 st next d ans rest Hin Hit.
    destruct (iteration_inversion fit cfg episode s0 s1 st next d ans rest
                Hit) as (v & Hv & _ & Hev).
    destruct (optimizationStep_keeps Weights forward units fit cfg s0 d)
      as (_ & _ & Hmem & _).
    destruct (inWindow st next) eqn:Hw.
    + destruct (evaluateStep_accept Weights cfg episode
                  (optimizationStep Weights forward units fit cfg s0 d)
                  st v
                  (selectAction Weights forward units
                     (onlineModel Weights s0) v (epsilon Weights s0) d)
                  next Hw) as (v' & Hv' & Hacc).
      rewrite Hacc in Hev. injection Hev as <-. simpl.
      rewrite Hmem. apply add_keeps_labels; [|exact Hin].
      unfold wellLabelled, rewardFor. simpl.
      split; [|split; [|split]].
      * intros Hd. rewrite Hd. reflexivity.
      * intros Hd. rewrite Hd.
        destruct (Nat.eqb _ 1); [left | right]; reflexivity.
      * exact (stateToTensor_vector_length st v Hv).
      * exact (stateToTensor_vector_length next v' Hv').
    + rewrite (evaluateStep_discard Weights cfg episode _ st v _ next Hw)
        in Hev.
      injection Hev as <-.
      destruct (done next); simpl; rewrite Hmem; exact Hin.
  - intros episode s0 Hin. unfold episodeEnd.
    destruct (syncDue cfg episode); exact Hin.
  - exact H0.
Qed.

End Loop.

Lemma log_lists_every_episode_witness :
  exists s : Session nat,
    trainDinoModel nat toyForward 2 toyFit scriptedConfig 0%nat 3%nat
      (Replay.mkMemory 10%nat []) [] [toyDice; toyDice]
      [stateAt0; stateAt45; stateAt90]
    = Finished s
    /\ exists lines : list LogLine,
         logs nat s = Separator :: lines /\ length lines = 1%nat.
Proof.
  eexists. split; [reflexivity|].
  match goal with
  | |- exists lines, logs nat ?s = _ /\ _ =>
      destruct (proj1 (log_lists_every_episode nat toyForward 2 toyFit
                         scriptedConfig 0%nat 3%nat
                         (Replay.mkMemory 10%nat []) [] [toyDice; toyDice]
                         [stateAt0; stateAt45; stateAt90] s eq_refl))
        as (lines & Hl & Hlen & _)
  end.
  exists lines. split; assumption.
Defined.

Lemma logged_reward_at_least_minus_one_witness :
  exists s : Session nat,
    trainDinoModel nat toyForward 2 toyFit scriptedConfig 0%nat 3%nat
      (Replay.mkMemory 10%nat []) [] [toyDice; toyDice]
      [stateAt0; stateAt45; stateAt90]
    = Finished s
    /\ episodeReward nat s = 0%R.
Proof.
  eexists. split; [reflexivity|].
  match goal with
  | |- episodeReward nat ?s = _ =>
      exact (proj1 (logged_reward_at_least_minus_one nat toyForward 2
                      toyFit scriptedConfig 0%nat 3%nat
                      (Replay.mkMemory 10%nat []) [] [toyDice; toyDice]
                      [stateAt0; stateAt45; stateAt90] s eq_refl))
  end.
Defined.

Lemma session_ends_synced_witness :
  (0 < episodes scriptedConfig)%nat
  /\ Nat.divide (targetUpdateFrequency scriptedConfig)
                (episodes scriptedConfig)
  /\ exists s : Session nat,
       trainDinoModel nat toyForward 2 toyFit scriptedConfig 0%nat 3%nat
         (Replay.mkMemory 10%nat []) [] [toyDice; toyDice]
         [stateAt0; stateAt45; stateAt90]
       = Finished s
       /\ targetModel nat s = onlineModel nat s.
Proof.
  assert (Hpos : (0 < episodes scriptedConfig)%nat) by (simpl; lia).
  assert (Hdiv : Nat.divide (targetUpdateFrequency scriptedConfig)
                            (episodes scriptedConfig)).
  { exists 1%nat. reflexivity. }
  split; [exact Hpos|]. split; [exact Hdiv|].
  eexists. split; [reflexivity|].
  match goal with
  | |- targetModel nat ?s = _ =>
      exact (proj1 (session_ends_synced nat toyForward 2 toyFit
                      scriptedConfig 0%nat 3%nat
                      (Replay.mkMemory 10%nat []) [] [toyDice; toyDice]
                      [stateAt0; stateAt45; stateAt90] s Hpos Hdiv eq_refl))
  end.
Defined.

Lemma session_sync_count_witness :
  exists s : Session nat,
    trainDinoModel nat toyForward 2 toyFit scriptedConfig 0%nat 3%nat
      (Replay.mkMemory 10%nat []) [] [toyDice; toyDice]
      [stateAt0; stateAt45; stateAt90]
    = Finished s
    /\ length (disk nat s) = 2%nat.
Proof.
  eexists. split; [reflexivity|].
  match goal with
  | |- length (disk nat ?s) = _ =>
      exact (session_sync_count nat toyForward 2 toyFit scriptedConfig
               0%nat 3%nat (Replay.mkMemory 10%nat []) []
               [toyDice; toyDice] [stateAt0; stateAt45; stateAt90] s
               eq_refl)
  end.
Defined.

Lemma epsilon_stays_between_bounds_witness :
  (0 < epsilonDecay scriptedConfig)%R
  /\ (Rmin (epsilonStart scriptedConfig) (epsilonEnd scriptedConfig)
      <= epsilon nat
           (reached (fun s' : Session nat => s')
              (trainDinoModel nat toyForward 2 toyFit scriptedConfig 0%nat
                 3%nat (Replay.mkMemory 10%nat []) [] [toyDice; toyDice]
                 [stateAt0; stateAt45; stateAt90]))
      <= Rmax (epsilonStart scriptedConfig) (epsilonEnd scriptedConfig))%R.
Proof.
  assert (Hd : (0 < epsilonDecay scriptedConfig)%R) by (simpl; lra).
  split; [exact Hd|].
  exact (epsilon_stays_between_bounds nat toyForward 2 toyFit scriptedConfig
           0%nat 3%nat (Replay.mkMemory 10%nat []) [] [toyDice; toyDice]
           [stateAt0; stateAt45; stateAt90] Hd).
Defined.

Lemma memory_stays_well_labelled_witness :
  Forall wellLabelled (Replay.buffer (Replay.mkMemory 10%nat []))
  /\ Forall wellLabelled
       (Replay.buffer
          (memory nat
             (reached (fun s' : Session nat => s')
                (trainDinoModel nat toyForward 2 toyFit scriptedConfig 0%nat
                   3%nat (Replay.mkMemory 10%nat []) [] [toyDice; toyDice]
                   [stateAt0; stateAt45; stateAt90])))).
Proof.
  assert (H0 : Forall wellLabelled
                 (Replay.buffer (Replay.mkMemory 10%nat [])))
    by constructor.
  split; [exact H0|].
  exact (memory_stays_well_labelled nat toyForward 2 toyFit scriptedConfig
           0%nat 3%nat (Replay.mkMemory 10%nat []) [] [toyDice; toyDice]
           [stateAt0; stateAt45; stateAt90] H0).
Defined.

End LoopFacts.

(** ** Start-up and shutdown *)

Module SetupFacts.

Import Encoder EncoderFacts Training TrainingFacts Notions LoopFacts Setup
       Toy Scripts.

Section Boot.

Variable Weights : Type.
Variable forward : Weights -> list Z -> list R.
Variable units : nat.

Abbreviation Session := (Session Weights).
Abbreviation Fit :=
  (Weights -> list (list Z) -> list (list R) -> nat -> Exn + (Weights * R)).

(** *** The training never reads the storage *)

Lemma optimizationStep_forget (fit : Fit) (cfg : Config) (s : Session)
    (d : Dice) :
  optimizationStep Weights forward units fit cfg (forgetDisk s) d
  = forgetDisk (optimizationStep Weights forward units fit cfg s d).
Proof.
  destruct s as [eps rew mem onl tgt dsk con lgs].
  unfold optimizationStep, tryBlock, forgetDisk. simpl.
  destruct (Nat.leb _ _); [|reflexivity].
  destruct (bind _ _) as [e | [model loss]]; reflexivity.
Qed.

Lemma evaluateStep_forget (cfg : Config) (episode : nat) (s : Session)
    (state : State) (stateTensor : list Z) (action : nat)
    (nextState : State) :
  evaluateStep Weights cfg episode (forgetDisk s) state stateTensor action
               nextState
  = match evaluateStep Weights cfg episode s state stateTensor action
                       nextState with
    | inr s' => inr (forgetDisk s')
    | inl e => inl e
    end.
Proof.
  destruct s as [eps rew mem onl tgt dsk con lgs].
  unfold evaluateStep, forgetDisk. simpl.
  destruct (_ || _).
  - destruct (done nextState); reflexivity.
  - destruct (stateToTensor nextState) as [e | v]; reflexivity.
Qed.

Lemma iteration_forget (fit : Fit) (cfg : Config) (episode : nat)
    (s : Session) (state : State) (d : Dice) (answers : list State) :
  iteration Weights forward units fit cfg episode (forgetDisk s) state d
            answers
  = match iteration Weights forward units fit cfg episode s state d
                    answers with
    | inr (Some (s', nextState, rest)) =>
        inr (Some (forgetDisk s', nextState, rest))
    | inr None => inr None
    | inl e => inl e
    end.
Proof.
  unfold iteration.
  destruct (stateToTensor state) as [e | v]; [reflexivity|].
  simpl. rewrite optimizationStep_forget.
  unfold pollAndEvaluate.
  destruct (poll state answers) as [[next rest]|]; [|reflexivity].
  replace (onlineModel Weights (forgetDisk s))
    with (onlineModel Weights s) by (destruct s; reflexivity).
  replace (epsilon Weights (forgetDisk s))
    with (epsilon Weights s) by (destruct s; reflexivity).
  rewrite evaluateStep_forget.
  destruct (evaluateStep _ _ _ _ _ _ _ _) as [e | s']; reflexivity.
Qed.

Lemma whileLoop_forget (fit : Fit) (cfg : Config) (episode : nat) :
  forall (dice : list Dice) (s : Session) (state : State)
         (answers : list State),
    whileLoop Weights forward units fit cfg episode (forgetDisk s) state
              dice answers
    = mapRun (fun r : Session * list Dice * list State =>
                (forgetDisk (fst (fst r)), snd (fst r), snd r))
             forgetDisk
             (whileLoop Weights forward units fit cfg episode s state dice
                        answers).
Proof.
  induction dice as [|d dice IH]; intros s state answers; simpl.
  - destruct (done state); reflexivity.
  - destruct (done state); [reflexivity|].
    rewrite iteration_forget.
    destruct (iteration Weights forward units fit cfg episode s state d
                        answers)
      as [e | [[[s1 next] rest]|]]; try reflexivity.
    apply IH.
Qed.

Lemma episodeEnd_forget (cfg : Config) (episode : nat) (s : Session) :
  forgetDisk (episodeEnd Weights cfg episode (forgetDisk s))
  = forgetDisk (episodeEnd Weights cfg episode s).
Proof.
  destruct s as [eps rew mem onl tgt dsk con lgs].
  unfold episodeEnd, forgetDisk. simpl.
  destruct (syncDue cfg episode); reflexivity.
Qed.

Lemma forgetDisk_idempotent (s : Session) :
  forgetDisk (forgetDisk s) = forgetDisk s.
Proof. destruct s; reflexivity. Qed.

Lemma episodesLoop_forget (fit : Fit) (cfg : Config) :
  forall (todo episode : nat) (s1 s2 : Session) (dice : list Dice)
         (answers : list State),
    forgetDisk s1 = forgetDisk s2 ->
    mapRun forgetDisk forgetDisk
      (episodesLoop Weights forward units fit cfg todo episode s1 dice
                    answers)
    = mapRun forgetDisk forgetDisk
        (episodesLoop Weights forward units fit cfg todo episode s2 dice
                      answers).
Proof.
  induction todo as [|todo IH]; intros episode s1 s2 dice answers Heq;
    simpl.
  - rewrite Heq. reflexivity.
  - destruct answers as [|state answers]; simpl; [rewrite Heq; reflexivity|].
    pose proof (whileLoop_forget fit cfg episode dice s1 state answers)
      as H1.
    pose proof (whileLoop_forget fit cfg episode dice s2 state answers)
      as H2.
    rewrite Heq in H1. rewrite H1 in H2. clear H1.
    destruct (whileLoop Weights forward units fit cfg episode s1 state
                        dice answers)
      as [[[a1 dice1] answers1] | p1 | e1 q1];
      destruct (whileLoop Weights forward units fit cfg episode s2 state
                          dice answers)
      as [[[a2 dice2] answers2] | p2 | e2 q2];
      cbn [mapRun fst snd] in H2; try discriminate.
    + assert (Ha : forgetDisk a1 = forgetDisk a2) by congruence.
      assert (Hd : dice1 = dice2) by congruence.
      assert (Hans : answers1 = answers2) by congruence.
      subst dice2 answers2.
      apply IH.
      rewrite <- (episodeEnd_forget cfg episode a1).
      rewrite <- (episodeEnd_forget cfg episode a2).
      rewrite Ha. reflexivity.
    + cbn [mapRun]. congruence.
    + cbn [mapRun]. congruence.
Qed.

Lemma finalSave_forget (s1 s2 : Session) :
  forgetDisk s1 = forgetDisk s2 ->
  forgetDisk (finalSave Weights s1) = forgetDisk (finalSave Weights s2)
  /\ Sync.load Weights Sync.mainPath (disk Weights (finalSave Weights s1))
     = Sync.load Weights Sync.mainPath
         (disk Weights (finalSave Weights s2))
  /\ Sync.load Weights Sync.targetPath
       (disk Weights (finalSave Weights s1))
     = Sync.load Weights Sync.targetPath
         (disk Weights (finalSave Weights s2)).
Proof.
  destruct s1 as [eps1 rew1 mem1 onl1 tgt1 dsk1 con1 lgs1].
  destruct s2 as [eps2 rew2 mem2 onl2 tgt2 dsk2 con2 lgs2].
  unfold forgetDisk, finalSave. simpl. intros H.
  injection H as -> -> -> -> -> -> ->. repeat split.
Qed.

(** X22: a session reads nothing from the storage but the main
    checkpoint: two storages that hold the same main checkpoint (or
    none) lead to the same messages, the same models, replay memory,
    epsilon, console and log file, and the same two checkpoints at the
    end, whatever else they hold; in particular a saved target
    checkpoint is never read. *)
Theorem setup_reads_main_checkpoint_only (fit : Fit)
    (disk1 disk2 : Sync.Storage Weights) (fresh1 fresh2 : Weights)
    (dice : list Dice) (answers : list State) :
  Sync.load Weights Sync.mainPath disk1
  = Sync.load Weights Sync.mainPath disk2 ->
  match
    setupModelTraining Weights forward units fit disk1 fresh1 fresh2 dice
                       answers,
    setupModelTraining Weights forward units fit disk2 fresh1 fresh2 dice
                       answers
  with
  | Some o1, Some o2 =>
      messages Weights o1 = messages Weights o2
      /\ forgetDisk (final Weights o1) = forgetDisk (final Weights o2)
      /\ Sync.load Weights Sync.mainPath (disk Weights (final Weights o1))
         = Sync.load Weights Sync.mainPath
             (disk Weights (final Weights o2))
      /\ Sync.load Weights Sync.targetPath
           (disk Weights (final Weights o1))
         = Sync.load Weights Sync.targetPath
             (disk Weights (final Weights o2))
  | None, None => True
  | _, _ => False
  end.
Proof.
  intros Hmain. unfold setupModelTraining. rewrite Hmain.
  set (model := match Sync.load Weights Sync.mainPath disk2 with
                | Some w => (w, LoadedSavedModel)
                | None => (fresh1, NoSavedModel)
                end).
  set (target := match Sync.load Weights Sync.mainPath disk2 with
                 | Some w => (w, LoadedTargetModel)
                 | None => (fresh2, NoTargetModel)
                 end).
  destruct model as [model said1], target as [target said2].
  unfold trainDinoModel.
  pose proof (episodesLoop_forget fit sessionConfig
                (episodes sessionConfig) 0
                (mkSession Weights (epsilonStart sessionConfig) 0
                   sessionMemory model target disk1 [] [Separator])
                (mkSession Weights (epsilonStart sessionConfig) 0
                   sessionMemory model target disk2 [] [Separator])
                dice answers eq_refl) as Hrun.
  destruct (episodesLoop Weights forward units fit sessionConfig
              (episodes sessionConfig) 0
              (mkSession Weights (epsilonStart sessionConfig) 0
                 sessionMemory model target disk1 [] [Separator])
              dice answers) as [s1 | p1 | e1 q1];
    destruct (episodesLoop Weights forward units fit sessionConfig
                (episodes sessionConfig) 0
                (mkSession Weights (epsilonStart sessionConfig) 0
                   sessionMemory model target disk2 [] [Separator])
                dice answers) as [s2 | p2 | e2 q2];
    cbn [mapRun] in Hrun; try discriminate; try exact I.
  - assert (Hs : forgetDisk s1 = forgetDisk s2) by congruence.
    split; [reflexivity|].
    exact (finalSave_forget s1 s2 Hs).
  - assert (He : e1 = e2) by congruence.
    assert (Hq : forgetDisk q1 = forgetDisk q2) by congruence.
    subst e2. split; [reflexivity|].
    exact (finalSave_forget q1 q2 Hq).
Qed.

(** X23: when the training of a session finishes, start-up included,
    the session ends synchronised: 10000 episodes are a multiple of the
    frequency 10, so the target model holds the online weights and the
    two checkpoints written at the end hold these same weights. *)
Theorem setup_ends_synced (fit : Fit) (disk0 : Sync.Storage Weights)
    (fresh1 fresh2 : Weights) (dice : list Dice) (answers : list State)
    (o : Outcome Weights) :
  setupModelTraining Weights forward units fit disk0 fresh1 fresh2 dice
                     answers
  = Some o ->
  (forall e : Exn, ~ In (TrainingError e) (messages Weights o)) ->
  targetModel Weights (final Weights o)
  = onlineModel Weights (final Weights o)
  /\ Sync.load Weights Sync.mainPath (disk Weights (final Weights o))
     = Some (onlineModel Weights (final Weights o))
  /\ Sync.load Weights Sync.targetPath (disk Weights (final Weights o))
     = Some (onlineModel Weights (final Weights o)).
Proof.
  unfold setupModelTraining.
  set (model := match Sync.load Weights Sync.mainPath disk0 with
                | Some w => (w, LoadedSavedModel)
                | None => (fresh1, NoSavedModel)
                end).
  set (target := match Sync.load Weights Sync.mainPath disk0 with
                 | Some w => (w, LoadedTargetModel)
                 | None => (fresh2, NoTargetModel)
                 end).
  destruct model as [model said1], target as [target said2].
  destruct (trainDinoModel Weights forward units fit sessionConfig model
              target sessionMemory disk0 dice answers)
    as [s | p | e q] eqn:Hrun; try discriminate.
  - intros H _. injection H as <-.
    assert (Hpos : (0 < episodes sessionConfig)%nat).
    { apply Nat.ltb_lt. vm_compute. reflexivity. }
    assert (Hdiv : Nat.divide (targetUpdateFrequency sessionConfig)
                              (episodes sessionConfig)).
    { exists 1000%nat. vm_compute. reflexivity. }
    destruct (episodesLoop_final_sync Weights forward units fit
                sessionConfig (pred (episodes sessionConfig)) 0
                (mkSession Weights (epsilonStart sessionConfig) 0
                   sessionMemory model target disk0 [] [Separator])
                s dice answers) as (Ht & _ & _).
    + apply SessionFacts.syncDue_divide.
      replace (0 + pred (episodes sessionConfig) + 1)%nat
        with (episodes sessionConfig) by lia.
      exact Hdiv.
    + replace (S (pred (episodes sessionConfig)))
        with (episodes sessionConfig) by lia.
      exact Hrun.
    + unfold finalSave. simpl. rewrite Ht. repeat split.
  - intros H Hno. injection H as <-.
    exfalso. apply (Hno e). simpl. auto.
Qed.

End Boot.

(** Episodes that are over at once: the loop finishes whatever their
    number. *)
Lemma crashed_episodes_finish (cfg : Config) :
  forall (n episode : nat) (s : Session nat),
    exists s' : Session nat,
      episodesLoop nat toyForward 2 toyFit cfg n episode s []
                   (repeat crashed n)
      = Finished s'.
Proof.
  induction n as [|n IH]; intros episode s; simpl.
  - exists s. reflexivity.
  - apply IH.
Qed.

Lemma setup_reads_main_checkpoint_only_witness :
  Sync.load nat Sync.mainPath [] 
  = Sync.load nat Sync.mainPath [(Sync.targetPath, 7%nat)]
  /\ match
       setupModelTraining nat toyForward 2 toyFit [] 0%nat 1%nat []
                          [crashed],
       setupModelTraining nat toyForward 2 toyFit
                          [(Sync.targetPath, 7%nat)] 0%nat 1%nat []
                          [crashed]
     with
     | Some o1, Some o2 =>
         messages nat o1 = messages nat o2
         /\ forgetDisk (final nat o1) = forgetDisk (final nat o2)
         /\ Sync.load nat Sync.mainPath (disk nat (final nat o1))
            = Sync.load nat Sync.mainPath (disk nat (final nat o2))
         /\ Sync.load nat Sync.targetPath (disk nat (final nat o1))
            = Sync.load nat Sync.targetPath (disk nat (final nat o2))
     | None, None => True
     | _, _ => False
     end.
Proof.
  split; [reflexivity|].
  apply (setup_reads_main_checkpoint_only nat toyForward 2 toyFit []
           [(Sync.targetPath, 7%nat)] 0%nat 1%nat [] [crashed]).
  reflexivity.
Defined.

Lemma setup_ends_synced_witness :
  exists o : Outcome nat,
    setupModelTraining nat toyForward 2 toyFit [] 0%nat 1%nat []
                       (repeat crashed (episodes sessionConfig))
    = Some o
    /\ (forall e : Exn, ~ In (TrainingError e) (messages nat o))
    /\ targetModel nat (final nat o) = onlineModel nat (final nat o).
Proof.
  destruct (crashed_episodes_finish sessionConfig (episodes sessionConfig)
              0%nat
              (mkSession nat (epsilonStart sessionConfig) 0%R sessionMemory
                         0%nat 1%nat [] [] [Separator]))
    as [s Hs].
  assert (Hrun : setupModelTraining nat toyForward 2 toyFit [] 0%nat 1%nat
                   [] (repeat crashed (episodes sessionConfig))
                 = Some (mkOutcome nat [NoSavedModel; NoTargetModel]
                           (finalSave nat s))).
  { unfold setupModelTraining, trainDinoModel.
    cbn [Sync.load]. rewrite Hs. reflexivity. }
  assert (Hno : forall e : Exn,
             ~ In (TrainingError e)
                  (messages nat
                     (mkOutcome nat [NoSavedModel; NoTargetModel]
                        (finalSave nat s)))).
  { intros e [H | [H | []]]; discriminate. }
  exists (mkOutcome nat [NoSavedModel; NoTargetModel] (finalSave nat s)).
  split; [exact Hrun|]. split; [exact Hno|].
  exact (proj1 (setup_ends_synced nat toyForward 2 toyFit [] 0%nat 1%nat []
                  (repeat crashed (episodes sessionConfig)) _ Hrun Hno)).
Defined.

End SetupFacts.

(** ** The probe *)

Module ProbeFacts.

Import Js JsFacts Encoder EncoderFacts Probe Toy.

Section Model.

Variable Weights : Type.
Variable forward : Weights -> list Z -> list R.
Variable units : nat.

(** One pass on the probe vector: it evaluates the model on the
    encodings of the two probe states and leaves the vector as it found
    it. *)
Lemma probePass_restores (model : Weights) (i : nat) :
  (i < 20)%nat ->
  exists v v' : list Z,
    stateToTensor (probeState i false 93) = inr v
    /\ stateToTensor (probeState i true 20) = inr v'
    /\ probePass Weights forward units model probeVector i
       = inr (mkProbeLine i (forward model v) (forward model v'),
              probeVector).
Proof.
  intros Hi.
  do 20 (destruct i as [|i];
         [ eexists; eexists; split; [reflexivity|];
           split; [reflexivity|];
           unfold probePass, Learner.dataSync, Learner.apply;
           simpl; rewrite !app_nil_r; reflexivity
         | ]).
  lia.
Qed.

Lemma probeLoop_lines (model : Weights) :
  forall count : nat,
    (count <= 20)%nat ->
    exists lines : list ProbeLine,
      probeLoop Weights forward units model probeVector count = inr lines
      /\ length lines = count
      /\ forall k : nat, (k < count)%nat ->
           exists v v' : list Z,
             stateToTensor (probeState (count - 1 - k) false 93) = inr v
             /\ stateToTensor (probeState (count - 1 - k) true 20) = inr v'
             /\ nth_error lines k
                = Some (mkProbeLine (count - 1 - k) (forward model v)
                                    (forward model v')).
Proof.
  induction count as [|i IH]; intros Hc.
  - exists []. repeat split. intros k Hk. lia.
  - destruct (probePass_restores model i ltac:(lia))
      as (v & v' & Hv & Hv' & Hpass).
    destruct (IH ltac:(lia)) as (rest & Hrest & Hlen & Hk).
    exists (mkProbeLine i (forward model v) (forward model v') :: rest).
    split; [|split].
    + cbn [probeLoop]. rewrite Hpass, Hrest. reflexivity.
    + simpl. rewrite Hlen. reflexivity.
    + intros [|k] Hlt.
      * replace (S i - 1 - 0)%nat with i by lia.
        exists v, v'. repeat split; assumption.
      * replace (S i - 1 - S k)%nat with (i - 1 - k)%nat by lia.
        exact (Hk k ltac:(lia)).
Qed.

(** X24: [test] never raises and prints 20 lines, for the buckets 19
    down to 0; the two inputs it feeds the model for bucket i are
    exactly the encodings of a state with one obstacle in bucket i
    (yPos 105, width 51, size 3), once with the dinosaur on the ground
    at y 93 and once jumping at y 20: the hand-written vector agrees
    with the layout of [stateToTensor]. *)
Theorem test_probes_encoded_states (model : Weights) :
  exists lines : list ProbeLine,
    test Weights forward units model = inr lines
    /\ length lines = 20%nat
    /\ forall k : nat, (k < 20)%nat ->
         exists v v' : list Z,
           stateToTensor (probeState (19 - k) false 93) = inr v
           /\ stateToTensor (probeState (19 - k) true 20) = inr v'
           /\ nth_error lines k
              = Some (mkProbeLine (19 - k) (forward model v)
                                  (forward model v')).
Proof.
  destruct (probeLoop_lines model 20 (le_n 20))
    as (lines & Hrun & Hlen & Hk).
  exists lines. split; [exact Hrun|]. split; [exact Hlen|].
  intros k Hlt. destruct (Hk k Hlt) as (v & v' & Hv & Hv' & Hnth).
  exists v, v'. repeat split; assumption.
Qed.

End Model.

End ProbeFacts.
